(** * LS33D: the L-system plant generator

    A shallow embedding of [generatePlantGeometry] and of the classes and
    helpers it uses ([SPATIAL_TREE_RULES], [TurtleStack], [getPlantColor]),
    with the properties of the grammar expander, of the turtle interpreter
    and of the save/restore stack.

    Conventions.
    - A JavaScript string is a [string]; [for (const char of s)] visits its
      characters from left to right.
    - The [rules] object is a finite map from strings to strings; it is only
      ever indexed with one-character strings.
    - A JavaScript number is a real number in [Three], [Turtle] and [Heap]:
      arithmetic is exact there, so the geometric statements are about the
      computation without rounding, and [Math.acos], which is NaN outside
      [-1, 1], is only spoken of where its argument is in that range.  The
      module [Doubles] evaluates single steps on binary64 floats, where
      rounding decides a statement.
    - [rnd : nat -> R] is the sequence of the numbers that [Math.random]
      returns to the calls written in [generatePlantGeometry]; the
      interpreter carries the number of these calls made so far.  The
      constructors of three.js call [Math.random] as well, for the UUIDs of
      the objects they make; those calls are not part of the sequence.
    - [THREE.Vector3] and [THREE.Color] objects are mutable and live in a
      heap in the part about [TurtleStack], where aliasing is the point;
      the interpreter, which only ever holds clones, works on values. *)

From Stdlib Require Import Reals Lra Lia ZArith List Ascii String.
From Stdlib Require PrimFloat.
From stdpp Require Import base gmap strings.

(** ** The parts of three.js the generator calls

    three.js is a dependency, not part of the repository.  The operations
    below are the library's own definitions of [Vector3], [Quaternion] and
    [Color], written over the reals. *)

Module Three.

Open Scope R_scope.

Record Vector3 := { x : R; y : R; z : R }.

Record Quaternion := { qx : R; qy : R; qz : R; qw : R }.

Record Color := { r : R; g : R; b : R }.

(** [v.clone()] on values. *)
Definition clone (v : Vector3) : Vector3 := v.

(** [a.add(b)]. *)
Definition add (a b : Vector3) : Vector3 :=
  {| x := x a + x b; y := y a + y b; z := z a + z b |}.

(** [v.multiplyScalar(s)]. *)
Definition multiplyScalar (v : Vector3) (s : R) : Vector3 :=
  {| x := x v * s; y := y v * s; z := z v * s |}.

(** [v.divideScalar(s)] is [v.multiplyScalar(1 / s)]. *)
Definition divideScalar (v : Vector3) (s : R) : Vector3 :=
  multiplyScalar v (1 / s).

(** [a.dot(b)]. *)
Definition dot (a b : Vector3) : R :=
  x a * x b + y a * y b + z a * z b.

(** [target.crossVectors(a, b)]. *)
Definition crossVectors (a b : Vector3) : Vector3 :=
  {| x := y a * z b - z a * y b;
     y := z a * x b - x a * z b;
     z := x a * y b - y a * x b |}.

(** [v.lengthSq()] and [v.length()]. *)
Definition lengthSq (v : Vector3) : R :=
  x v * x v + y v * y v + z v * z v.

Definition length (v : Vector3) : R := sqrt (lengthSq v).

(** JavaScript's [a || 1] on numbers: zero is falsy. *)
Definition or_one (a : R) : R :=
  if Req_dec_T a 0 then 1 else a.

(** [v.normalize()] is [v.divideScalar(v.length() || 1)]: the zero vector
    is left as it is. *)
Definition normalize (v : Vector3) : Vector3 :=
  divideScalar v (or_one (length v)).

(** [q.setFromAxisAngle(axis, angle)]; the axis is assumed normalized by
    the library and is not checked. *)
Definition setFromAxisAngle (axis : Vector3) (angle : R) : Quaternion :=
  let halfAngle := angle / 2 in
  let s := sin halfAngle in
  {| qx := x axis * s; qy := y axis * s; qz := z axis * s;
     qw := cos halfAngle |}.

(** [v.applyQuaternion(q)]: with [t = 2 * cross(q.xyz, v)] the result is
    [v + q.w * t + cross(q.xyz, t)].  These are also the entries of the
    rotation matrix an [Object3D] builds from its quaternion. *)
Definition applyQuaternion (v : Vector3) (q : Quaternion) : Vector3 :=
  let tx := 2 * (qy q * z v - qz q * y v) in
  let ty := 2 * (qz q * x v - qx q * z v) in
  let tz := 2 * (qx q * y v - qy q * x v) in
  {| x := x v + qw q * tx + qy q * tz - qz q * ty;
     y := y v + qw q * ty + qz q * tx - qx q * tz;
     z := z v + qw q * tz + qx q * ty - qy q * tx |}.

(** [q.lengthSq()]. *)
Definition normSq (q : Quaternion) : R :=
  qx q * qx q + qy q * qy q + qz q * qz q + qw q * qw q.

(** [v.applyAxisAngle(axis, angle)]. *)
Definition applyAxisAngle (v axis : Vector3) (angle : R) : Vector3 :=
  applyQuaternion v (setFromAxisAngle axis angle).

(** [target.lerpColors(c1, c2, alpha)]. *)
Definition lerpColors (c1 c2 : Color) (alpha : R) : Color :=
  {| r := r c1 + (r c2 - r c1) * alpha;
     g := g c1 + (g c2 - g c1) * alpha;
     b := b c1 + (b c2 - b c1) * alpha |}.

(** The two colour operations whose result depends on the library's colour
    management: [new THREE.Color(hex)] and [c.offsetHSL(h, s, l)]. *)
Class ColorSpace := {
  fromHex : Z -> Color;
  offsetHSL : Color -> R -> R -> R -> Color
}.

(** The arguments of [new THREE.CylinderGeometry(...)].  The cylinder lies
    along the local Y axis and is centred at the origin: its top cap, of
    radius [radiusTop], is at [y = height / 2] and its bottom cap, of radius
    [radiusBottom], at [y = - height / 2]. *)
Record CylinderGeometry := {
  radiusTop : R;
  radiusBottom : R;
  height : R;
  radialSegments : Z;
  heightSegments : Z;
  openEnded : bool
}.

(** [new THREE.MeshPhongMaterial({ color, shininess })]. *)
Record MeshPhongMaterial := {
  color : Color;
  shininess : R
}.

(** The fields of a [THREE.Mesh] the generator sets. *)
Record Mesh := {
  geometry : CylinderGeometry;
  position : Vector3;
  quaternion : Quaternion;
  material : MeshPhongMaterial
}.

(** Where a point of the mesh's local frame is drawn: rotated by the mesh's
    quaternion, then moved to the mesh's position (the scale is 1). *)
Definition localToWorld (m : Mesh) (p : Vector3) : Vector3 :=
  add (applyQuaternion p (quaternion m)) (position m).

(** The centres of the two caps of a mesh's cylinder, as drawn. *)
Definition topCentre (m : Mesh) : Vector3 :=
  localToWorld m {| x := 0; y := height (geometry m) / 2; z := 0 |}.

Definition bottomCentre (m : Mesh) : Vector3 :=
  localToWorld m {| x := 0; y := - (height (geometry m) / 2); z := 0 |}.

End Three.

(** ** The grammar expander *)

Module Grammar.

Open Scope string_scope.

(** The type of the [SPATIAL_TREE_RULES] object. *)
Record Config := {
  axiom : string;
  rules : gmap string string;
  angle : R;
  length : R;
  iterations : nat;
  lengthVariation : R;
  angleVariation : R
}.

Definition SPATIAL_TREE_RULES : Config := {|
  axiom := "X";
  rules := <["X" := "F+[[X]-X]-F[-FX]+X+F[+X]-X+F[+X]+X"]>
           (<["F" := "FF"]> ∅);
  angle := (PI / 6)%R;
  length := 0.08%R;
  iterations := 4;
  lengthVariation := 0.1%R;
  angleVariation := 0.05%R
|}.

(** The test of [if (rules[char])]: a missing key gives [undefined] and an
    empty string is falsy as well; every other string is truthy. *)
Definition truthy (v : option string) : bool :=
  match v with
  | None => false
  | Some EmptyString => false
  | Some (String _ _) => true
  end.

(** JavaScript's [rules[char]] in the branch where the test succeeded. *)
Definition get (v : option string) : string :=
  match v with
  | None => ""
  | Some r => r
  end.

(** One round of the inner loop: [newString += rules[char]] or
    [newString += char]. *)
Definition append_char (rs : gmap string string) (newString : string)
    (char : ascii) : string :=
  let key := String char "" in
  if truthy (rs !! key)
  then newString +:+ get (rs !! key)
  else newString +:+ key.

(** The inner loop, from [let newString = ''] to [currentString = newString]. *)
Definition rewrite (rs : gmap string string) (currentString : string) : string :=
  fold_left (append_char rs) (list_ascii_of_string currentString) "".

(** The outer loop [for (let i = 0; i < iterations; i++)]. *)
Fixpoint expand_loop (rs : gmap string string) (n : nat)
    (currentString : string) : string :=
  match n with
  | O => currentString
  | S k => expand_loop rs k (rewrite rs currentString)
  end.

Definition expand (ax : string) (rs : gmap string string) (n : nat) : string :=
  expand_loop rs n ax.

(** The string the program interprets. *)
Definition expanded (c : Config) : string :=
  expand (axiom c) (rules c) (iterations c).

(** *** The contract of the expander, as a specification

    [subst_spec] follows the contract's words: a character with a rule is
    replaced by the rule's right-hand side, any other character is kept. *)
Definition subst_spec (rs : gmap string string) (c : ascii) : string :=
  match rs !! String c "" with
  | Some r => r
  | None => String c ""
  end.

(** What the program's test does: a rule with an empty right-hand side counts
    as no rule. *)
Definition subst_nonempty (rs : gmap string string) (c : ascii) : string :=
  match rs !! String c "" with
  | Some (String a r) => String a r
  | _ => String c ""
  end.

(** Simultaneous substitution of every character, left to right. *)
Fixpoint subst_all (f : ascii -> string) (s : string) : string :=
  match s with
  | EmptyString => ""
  | String c s' => f c +:+ subst_all f s'
  end.

(** [n] generations of it. *)
Fixpoint generation (f : ascii -> string) (n : nat) (s : string) : string :=
  match n with
  | O => s
  | S k => generation f k (subst_all f s)
  end.

End Grammar.

(** ** The turtle interpreter *)

Module Turtle.

Import Three.
Open Scope R_scope.

(** [interface TurtleState], with the vectors and the colour held by value. *)
Record TurtleState := {
  position : Vector3;
  direction : Vector3;
  length : R;
  angle : R;
  color : Color;
  radius : R;
  depth : R
}.

(** [class TurtleStack]: the private array, its last element first. *)
Definition TurtleStack := list TurtleState.

(** [TurtleStack.push]: a new object with cloned vectors and colour. *)
Definition push (stack : TurtleStack) (state : TurtleState) : TurtleStack :=
  {| position := clone (position state);
     direction := clone (direction state);
     length := length state;
     angle := angle state;
     color := color state;
     radius := radius state;
     depth := depth state |} :: stack.

(** [TurtleStack.pop]: [null] on an empty array, else a fresh copy of the
    entry removed from the array. *)
Definition pop (stack : TurtleStack) : option TurtleState * TurtleStack :=
  match stack with
  | [] => (None, [])
  | state :: rest =>
      (Some {| position := clone (position state);
               direction := clone (direction state);
               length := length state;
               angle := angle state;
               color := color state;
               radius := radius state;
               depth := depth state |}, rest)
  end.

Section Interpreter.

Context `{ColorSpace}.

(** [function getPlantColor(depth, time)]. *)
Definition getPlantColor (depth time : R) : Color :=
  let trunkColor := fromHex 0x8B4513 in
  let branchColor := fromHex 0xCD853F in
  let twigColor := fromHex 0xD2691E in
  let t := Rmin (depth / 5) 1 in
  let color :=
    if Rlt_dec t 0.3
    then lerpColors trunkColor branchColor (t / 0.3)
    else lerpColors branchColor twigColor ((t - 0.3) / 0.7) in
  let variation := sin (time * 0.1 + depth) * 0.05 in
  offsetHSL color 0 0 variation.

(** The variables of [generatePlantGeometry] that the second loop updates,
    and [calls], the number of calls to [Math.random] that the statements
    of [generatePlantGeometry] have made so far (the calls made inside the
    constructors of three.js are not counted). *)
Record Interp := {
  branches : list Mesh;
  turtle : TurtleState;
  stack : TurtleStack;
  calls : nat
}.

Variable cfg : Grammar.Config.
Variable rnd : nat -> R.
Variable time : R.

(** The state before the second loop. *)
Definition initial : Interp := {|
  branches := [];
  turtle := {| position := {| x := 0; y := 0; z := 0 |};
               direction := {| x := 0; y := 1; z := 0 |};
               length := Grammar.length cfg;
               angle := Grammar.angle cfg;
               color := fromHex 0x8B4513;
               radius := 0.02;
               depth := 0 |};
  stack := [];
  calls := 0
|}.

(** The reference axis [const up = new THREE.Vector3(0, 1, 0)]. *)
Definition up : Vector3 := {| x := 0; y := 1; z := 0 |}.

(** [const axis] of [case 'F']. *)
Definition branchAxis (d : Vector3) : Vector3 :=
  normalize (crossVectors up d).

(** [branch.quaternion] of [case 'F'].  [Math.acos] is NaN outside
    [-1, 1], where [acos] has a value all the same: what is stated of this
    quaternion is stated for directions whose dot product with [up] is in
    that range. *)
Definition branchQuaternion (d : Vector3) : Quaternion :=
  let axis := branchAxis d in
  let angle := acos (dot up d) in
  setFromAxisAngle axis angle.

(** [const actualLength] of [case 'F'], one call to [Math.random]. *)
Definition actualLength (s : Interp) : R :=
  let lengthVariation :=
    1 + (rnd (calls s) - 0.5) * Grammar.lengthVariation cfg in
  length (turtle s) * lengthVariation.

(** The mesh built by [case 'F']. *)
Definition branch (s : Interp) : Mesh :=
  let t := turtle s in
  let startPos := clone (position t) in
  let actualLength := actualLength s in
  let branchGeometry :=
    {| radiusTop := radius t * 0.8;
       radiusBottom := radius t;
       height := actualLength;
       radialSegments := 6;
       heightSegments := 1;
       openEnded := false |} in
  {| geometry := branchGeometry;
     Three.position :=
       add startPos (multiplyScalar (clone (direction t)) (actualLength * 0.5));
     quaternion := branchQuaternion (direction t);
     material := {| Three.color := getPlantColor (depth t) time;
                    shininess := 20 |} |}.

(** [case 'F']. *)
Definition forward (s : Interp) : Interp :=
  let t := turtle s in
  {| branches := branches s ++ [branch s];
     turtle :=
       {| position :=
            add (position t)
                (multiplyScalar (clone (direction t)) (actualLength s));
          direction := direction t;
          length := length t;
          angle := angle t;
          color := getPlantColor (depth t) time;
          radius := radius t;
          depth := depth t |};
     stack := stack s;
     calls := S (calls s) |}.

(** [const actualAngle] of [case '+'] and [case '-']: the first of the four
    calls to [Math.random]. *)
Definition actualAngle (s : Interp) : R :=
  let angleVariation := (rnd (calls s) - 0.5) * Grammar.angleVariation cfg in
  angle (turtle s) + angleVariation.

(** The vector that [case '+'] and [case '-'] normalize into
    [rotationAxis]: the other three calls. *)
Definition sampledAxis (s : Interp) : Vector3 :=
  {| x := rnd (calls s + 1)%nat - 0.5;
     y := rnd (calls s + 2)%nat - 0.5;
     z := rnd (calls s + 3)%nat - 0.5 |}.

(** What [case '+'] and [case '-'] share: [theta] is [actualAngle] in the
    first and [-actualAngle2] in the second.  The rotation is exact here; in
    doubles it is rounded, and the code does not normalize its result. *)
Definition turn (s : Interp) (theta : R) : Interp :=
  let t := turtle s in
  let rotationAxis := normalize (sampledAxis s) in
  {| branches := branches s;
     turtle :=
       {| position := position t;
          direction := applyAxisAngle (direction t) rotationAxis theta;
          length := length t;
          angle := angle t;
          color := color t;
          radius := radius t;
          depth := depth t + 0.1 |};
     stack := stack s;
     calls := (calls s + 4)%nat |}.

(** [const spatialVariation] of [case '[']: three calls. *)
Definition spatialVariation (s : Interp) : Vector3 :=
  {| x := (rnd (calls s) - 0.5) * 0.3;
     y := (rnd (calls s + 1)%nat - 0.5) * 0.3;
     z := (rnd (calls s + 2)%nat - 0.5) * 0.3 |}.

(** [case '[']. *)
Definition save (s : Interp) : Interp :=
  let t := turtle s in
  {| branches := branches s;
     turtle :=
       {| position := position t;
          direction := normalize (add (direction t) (spatialVariation s));
          length := length t * 0.7;
          angle := angle t;
          color := color t;
          radius := radius t * 0.7;
          depth := depth t + 0.2 |};
     stack := push (stack s) t;
     calls := (calls s + 3)%nat |}.

(** [turtle.depth -= 0.2]. *)
Definition shallower (t : TurtleState) : TurtleState :=
  {| position := position t;
     direction := direction t;
     length := length t;
     angle := angle t;
     color := color t;
     radius := radius t;
     depth := depth t - 0.2 |}.

(** [case ']']. *)
Definition restore (s : Interp) : Interp :=
  let (restored, stack') := pop (stack s) in
  {| branches := branches s;
     turtle :=
       match restored with
       | Some t => shallower t
       | None => shallower (turtle s)
       end;
     stack := stack';
     calls := calls s |}.

(** The [switch (char)]: a character without a case changes nothing. *)
Definition step (s : Interp) (char : ascii) : Interp :=
  match char with
  | "F"%char => forward s
  | "+"%char => turn s (actualAngle s)
  | "-"%char => turn s (- actualAngle s)
  | "["%char => save s
  | "]"%char => restore s
  | _ => s
  end.

(** The second loop, [for (const char of currentString)], from state [s]. *)
Definition interpret (s : Interp) (currentString : string) : Interp :=
  fold_left step (list_ascii_of_string currentString) s.

(** The states the loop goes through: before the first character and after
    each one. *)
Fixpoint trace (s : Interp) (l : list ascii) : list Interp :=
  match l with
  | [] => [s]
  | char :: l' => s :: trace (step s char) l'
  end.

(** [function generatePlantGeometry(time)]. *)
Definition generatePlantGeometry : list Mesh :=
  branches (interpret initial (Grammar.expanded cfg)).

(** A property of every round of the loop: [P char s] for each character
    [char] and the state [s] it is processed in. *)
Fixpoint every_round (P : ascii -> Interp -> Prop) (s : Interp)
    (l : list ascii) : Prop :=
  match l with
  | [] => True
  | char :: l' => P char s /\ every_round P (step s char) l'
  end.

(** The two conditions on the random numbers under which every
    normalization has something to normalize: the vector sampled by a turn
    is not zero, and neither is the perturbed direction of a save. *)
Definition samples_nonzero (char : ascii) (s : Interp) : Prop :=
  (char = "+"%char \/ char = "-"%char ->
   sampledAxis s <> {| x := 0; y := 0; z := 0 |})
  /\ (char = "["%char ->
      add (direction (turtle s)) (spatialVariation s)
      <> {| x := 0; y := 0; z := 0 |}).

(** The invariant behind the unit direction: the live direction and every
    saved direction have squared length 1. *)
Definition directions_unit (s : Interp) : Prop :=
  lengthSq (direction (turtle s)) = 1
  /\ Forall (fun t => lengthSq (direction t) = 1) (stack s).

(** The rotation axis is fixed: every turn samples the vector [a]. *)
Definition axis_fixed (a : Vector3) (char : ascii) (s : Interp) : Prop :=
  char = "+"%char \/ char = "-"%char -> sampledAxis s = a.

(** The perturbation is fixed: every save samples the vector [p]. *)
Definition perturbation_fixed (p : Vector3) (char : ascii) (s : Interp)
    : Prop :=
  char = "["%char -> spatialVariation s = p.

End Interpreter.

End Turtle.

(** ** [TurtleStack] on objects

    Here every [THREE.Vector3], [THREE.Color] and [TurtleState] object has an
    identity, and a store maps the identities in use to the objects' current
    contents, so that two references to one object can be told from two equal
    objects. *)

Module Heap.

Import Three.
Open Scope R_scope.

Definition ref := positive.

(** A [TurtleState] object: references to its vectors and colour, and its
    numbers. *)
Record TurtleState := {
  position : ref;
  direction : ref;
  length : R;
  angle : R;
  color : ref;
  radius : R;
  depth : R
}.

Inductive Object :=
  | OVector3 (v : Vector3)
  | OColor (c : Color)
  | OState (s : TurtleState).

Definition vector3_at (h : gmap ref Object) (p : ref) : option Vector3 :=
  match h !! p with
  | Some (OVector3 v) => Some v
  | _ => None
  end.

Definition color_at (h : gmap ref Object) (p : ref) : option Color :=
  match h !! p with
  | Some (OColor c) => Some c
  | _ => None
  end.

Definition state_at (h : gmap ref Object) (p : ref) : option TurtleState :=
  match h !! p with
  | Some (OState s) => Some s
  | _ => None
  end.

(** A new object gets an identity that is not in use. *)
Definition alloc (h : gmap ref Object) (o : Object) : gmap ref Object * ref :=
  let p := fresh (dom h) in (<[p := o]> h, p).

(** [v.clone()] for a [Vector3]: a new object with the contents of the one
    at [p].  [None] stands for the [TypeError] of a call on something that is
    not a vector, which well-typed code does not make. *)
Definition clone_vector3 (h : gmap ref Object) (p : ref)
    : option (gmap ref Object * ref) :=
  v ← vector3_at h p; Some (alloc h (OVector3 v)).

(** [c.clone()] for a [Color]. *)
Definition clone_color (h : gmap ref Object) (p : ref)
    : option (gmap ref Object * ref) :=
  c ← color_at h p; Some (alloc h (OColor c)).

(** The object literal that both methods build from [state], field by field
    in the order written. *)
Definition copy_state (h : gmap ref Object) (state : ref)
    : option (gmap ref Object * ref) :=
  s ← state_at h state;
  '(h1, p) ← clone_vector3 h (position s);
  '(h2, d) ← clone_vector3 h1 (direction s);
  '(h3, c) ← clone_color h2 (color s);
  Some (alloc h3 (OState {| position := p;
                            direction := d;
                            length := length s;
                            angle := angle s;
                            color := c;
                            radius := radius s;
                            depth := depth s |})).

(** [TurtleStack.push(state)]; the array is a list of references, its last
    element first. *)
Definition push (h : gmap ref Object) (stack : list ref) (state : ref)
    : option (gmap ref Object * list ref) :=
  '(h', e) ← copy_state h state; Some (h', e :: stack).

(** [TurtleStack.pop()]: the store, the array and the result, which is
    [None] for [null]. *)
Definition pop (h : gmap ref Object) (stack : list ref)
    : option (gmap ref Object * list ref * option ref) :=
  match stack with
  | [] => Some (h, [], None)
  | state :: rest =>
      '(h', p) ← copy_state h state; Some (h', rest, Some p)
  end.

(** The contents of the state object at [p], read through its references. *)
Definition snapshot (h : gmap ref Object) (p : ref)
    : option Turtle.TurtleState :=
  s ← state_at h p;
  pos ← vector3_at h (position s);
  dir ← vector3_at h (direction s);
  col ← color_at h (color s);
  Some {| Turtle.position := pos;
          Turtle.direction := dir;
          Turtle.length := length s;
          Turtle.angle := angle s;
          Turtle.color := col;
          Turtle.radius := radius s;
          Turtle.depth := depth s |}.

(** The objects a state is made of: itself, its two vectors and its colour. *)
Definition footprint (h : gmap ref Object) (p : ref) : gset ref :=
  match state_at h p with
  | Some s => {[ p; position s; direction s; color s ]}
  | None => {[ p ]}
  end.

(** The array [stack] of state objects reads as the list of values [vs]. *)
Definition reads (h : gmap ref Object) (stack : list ref)
    (vs : Turtle.TurtleStack) : Prop :=
  Forall2 (λ p v, snapshot h p = Some v) stack vs.

(** [h'] has every object of [h], with the same contents. *)
Definition agrees (h h' : gmap ref Object) : Prop :=
  ∀ q, q ∈ dom h → h' !! q = h !! q.

(** [h'] is [h] after any number of writes to the objects in [X]. *)
Definition mutated (X : gset ref) (h h' : gmap ref Object) : Prop :=
  ∀ p, p ∉ X → h' !! p = h !! p.

End Heap.

(** ** Inputs for the examples *)

Module Inputs.

Open Scope R_scope.

(** The rules of the second testable property. *)
Definition doubling_rules : gmap string string :=
  <["X" := "F"]> (<["F" := "FF"]> ∅).

(** A rule that erases its symbol. *)
Definition erasing_rules : gmap string string := <["X" := ""]> ∅.

(** A colour space to run the examples in: the channels of a hex triplet are
    its bytes over 255, and [offsetHSL] moves every channel by the lightness
    offset.  No statement below depends on it. *)
Definition byte_colors : Three.ColorSpace := {|
  Three.fromHex h :=
    {| Three.r := IZR ((h / 65536) mod 256) / 255;
       Three.g := IZR ((h / 256) mod 256) / 255;
       Three.b := IZR (h mod 256) / 255 |};
  Three.offsetHSL c _ _ l :=
    {| Three.r := Three.r c + l;
       Three.g := Three.g c + l;
       Three.b := Three.b c + l |}
|}.

(** [Math.random] returning 0.5 at every call: no jitter at all. *)
Definition centred : nat -> R := fun _ => 0.5.

(** [Math.random] returning 0 at every call. *)
Definition lowest : nat -> R := fun _ => 0.

(** Three runs of [Math.random] for the string "F+[F]", whose calls are:
    0 for the length of the first F; 1 for the angle of the turn; 2, 3, 4
    for its axis; 5, 6, 7 for the perturbation of the save; 8 for the
    length of the second F.  [run_a] and [run_b] differ in the calls 0, 1
    and 8; [run_a] and [run_c] differ in the call 5 only. *)
Definition run_a : nat -> R :=
  fun k =>
    match k with
    | 0%nat => 0.25 | 1%nat => 0.125 | 2%nat => 0.75 | _ => 0.5
    end.

Definition run_b : nat -> R :=
  fun k =>
    match k with
    | 0%nat => 0.875 | 1%nat => 0.625 | 2%nat => 0.75 | 8%nat => 0.375
    | _ => 0.5
    end.

Definition run_c : nat -> R :=
  fun k =>
    match k with
    | 0%nat => 0.25 | 1%nat => 0.125 | 2%nat => 0.75 | 5%nat => 0
    | _ => 0.5
    end.

(** A store with one turtle state, the object 4, made of the vectors 1 and
    2 and the colour 3. *)
Definition one_turtle : gmap Heap.ref Heap.Object :=
  <[1%positive := Heap.OVector3 {| Three.x := 0; Three.y := 0; Three.z := 0 |}]>
  (<[2%positive :=
       Heap.OVector3 {| Three.x := 0; Three.y := 1; Three.z := 0 |}]>
  (<[3%positive :=
       Heap.OColor {| Three.r := 1; Three.g := 1; Three.b := 1 |}]>
  (<[4%positive :=
       Heap.OState {| Heap.position := 1%positive;
                      Heap.direction := 2%positive;
                      Heap.length := 1; Heap.angle := 0;
                      Heap.color := 3%positive; Heap.radius := 1;
                      Heap.depth := 0 |}]> ∅))).

(** What the object 4 of [one_turtle] reads as. *)
Definition one_turtle_value : Turtle.TurtleState := {|
  Turtle.position := {| Three.x := 0; Three.y := 0; Three.z := 0 |};
  Turtle.direction := {| Three.x := 0; Three.y := 1; Three.z := 0 |};
  Turtle.length := 1;
  Turtle.angle := 0;
  Turtle.color := {| Three.r := 1; Three.g := 1; Three.b := 1 |};
  Turtle.radius := 1;
  Turtle.depth := 0
|}.

(** [SPATIAL_TREE_RULES] with both variation factors set to zero. *)
Definition no_variation : Grammar.Config := {|
  Grammar.axiom := Grammar.axiom Grammar.SPATIAL_TREE_RULES;
  Grammar.rules := Grammar.rules Grammar.SPATIAL_TREE_RULES;
  Grammar.angle := Grammar.angle Grammar.SPATIAL_TREE_RULES;
  Grammar.length := Grammar.length Grammar.SPATIAL_TREE_RULES;
  Grammar.iterations := Grammar.iterations Grammar.SPATIAL_TREE_RULES;
  Grammar.lengthVariation := 0;
  Grammar.angleVariation := 0
|}.

End Inputs.

(** ** Notions for stating more properties *)

Module Analysis.

(** The nesting level after reading the symbols [l] at level [k], or [None]
    if some ] closes nothing. *)
Fixpoint nesting (k : nat) (l : list ascii) : option nat :=
  match l with
  | [] => Some k
  | c :: l' =>
      if Ascii.eqb c "["%char then nesting (S k) l'
      else if Ascii.eqb c "]"%char then
        match k with
        | O => None
        | S k' => nesting k' l'
        end
      else nesting k l'
  end.

(** Every ] closes a [ and every [ is closed. *)
Definition well_nested (s : string) : Prop :=
  nesting 0 (list_ascii_of_string s) = Some 0%nat.

(** The number of array elements after reading [l] with [k] elements: a ]
    that closes nothing removes nothing. *)
Fixpoint height (k : nat) (l : list ascii) : nat :=
  match l with
  | [] => k
  | c :: l' =>
      if Ascii.eqb c "["%char then height (S k) l'
      else if Ascii.eqb c "]"%char then height (Nat.pred k) l'
      else height k l'
  end.

(** The characters the [switch] has a case for. *)
Definition known (c : ascii) : bool :=
  Ascii.eqb c "F" || Ascii.eqb c "+" || Ascii.eqb c "-"
  || Ascii.eqb c "[" || Ascii.eqb c "]".

(** The rules keep the brackets of a string as they are: no rule that the
    expander applies rewrites a bracket, and the right-hand side of every
    such rule is well nested. *)
Definition bracket_neutral (rs : gmap string string) : Prop :=
  forall (c : ascii) (r : string),
    rs !! String c "" = Some r -> r <> ""%string ->
    c <> "["%char /\ c <> "]"%char /\ well_nested r.

(** The number of calls to [Math.random] that the statements of the loop
    make for the symbols [l]. *)
Fixpoint draws (l : list ascii) : nat :=
  match l with
  | [] => 0
  | c :: l' =>
      (if Ascii.eqb c "F"%char then 1
       else if Ascii.eqb c "+"%char then 4
       else if Ascii.eqb c "-"%char then 4
       else if Ascii.eqb c "["%char then 3
       else 0) + draws l'
  end.

(** [Math.acos(up.dot(d))] is a number, not NaN. *)
Definition acos_defined (d : Three.Vector3) : Prop :=
  (-1 <= Three.dot Turtle.up d <= 1)%R.

(** The saved states have the length and radius of their nesting level and
    the configured angle: the entry with [k] entries below it was saved at
    level [k]. *)
Fixpoint levels (L A : R) (stack : Turtle.TurtleStack) : Prop :=
  match stack with
  | [] => True
  | t :: rest =>
      Turtle.length t = (L * 0.7 ^ List.length rest)%R
      /\ Turtle.radius t = (0.02 * 0.7 ^ List.length rest)%R
      /\ Turtle.angle t = A
      /\ levels L A rest
  end.

(** The live state is at the level of the stack's height. *)
Definition at_level (cfg : Grammar.Config) (s : Turtle.Interp) : Prop :=
  levels (Grammar.length cfg) (Grammar.angle cfg)
    (Turtle.turtle s :: Turtle.stack s).

Section Colour.

Context `{Three.ColorSpace}.

Open Scope R_scope.

(** [const t] of [getPlantColor]. *)
Definition ramp (depth : R) : R := Rmin (depth / 5) 1.

(** The colour [getPlantColor] has before [offsetHSL]. *)
Definition gradient (depth : R) : Three.Color :=
  let trunkColor := Three.fromHex 0x8B4513 in
  let branchColor := Three.fromHex 0xCD853F in
  let twigColor := Three.fromHex 0xD2691E in
  let t := ramp depth in
  if Rlt_dec t 0.3
  then Three.lerpColors trunkColor branchColor (t / 0.3)
  else Three.lerpColors branchColor twigColor ((t - 0.3) / 0.7).

(** [const variation] of [getPlantColor]. *)
Definition variation (depth time : R) : R :=
  sin (time * 0.1 + depth) * 0.05.

End Colour.

End Analysis.

(** ** Some steps in double precision

    The numbers of the program are IEEE 754 doubles.  Where rounding decides
    a statement, the operations are evaluated here on binary64 floats, with
    the operations of [Three] written in the same order. *)

Module Doubles.

Import PrimFloat.
Open Scope float_scope.

Record Vector3 := { x : float; y : float; z : float }.

(** [a.add(b)]. *)
Definition add (a b : Vector3) : Vector3 :=
  {| x := x a + x b; y := y a + y b; z := z a + z b |}.

(** [v.multiplyScalar(s)]. *)
Definition multiplyScalar (v : Vector3) (s : float) : Vector3 :=
  {| x := x v * s; y := y v * s; z := z v * s |}.

(** [v.divideScalar(s)] is [v.multiplyScalar(1 / s)]. *)
Definition divideScalar (v : Vector3) (s : float) : Vector3 :=
  multiplyScalar v (1 / s).

(** [a.dot(b)]. *)
Definition dot (a b : Vector3) : float :=
  x a * x b + y a * y b + z a * z b.

(** [target.crossVectors(a, b)]. *)
Definition crossVectors (a b : Vector3) : Vector3 :=
  {| x := y a * z b - z a * y b;
     y := z a * x b - x a * z b;
     z := x a * y b - y a * x b |}.

(** [v.length()]. *)
Definition length (v : Vector3) : float :=
  sqrt (x v * x v + y v * y v + z v * z v).

(** JavaScript's [a || 1] on numbers: 0, -0 and NaN are falsy. *)
Definition or_one (a : float) : float :=
  if (a =? 0) || negb (a =? a) then 1 else a.

(** [v.normalize()] is [v.divideScalar(v.length() || 1)]. *)
Definition normalize (v : Vector3) : Vector3 :=
  divideScalar v (or_one (length v)).

(** [new THREE.Vector3(0, 1, 0)]: the initial direction and the reference
    axis [up]. *)
Definition up : Vector3 := {| x := 0; y := 1; z := 0 |}.

(** The opposite direction. *)
Definition down : Vector3 := {| x := 0; y := -1; z := 0 |}.

(** [const axis] of [case 'F']. *)
Definition branchAxis (d : Vector3) : Vector3 :=
  normalize (crossVectors up d).

(** The double written [0.3]. *)
Definition three_tenths : float := 0x1.3333333333333p-2.

(** [const spatialVariation] of [case '['], from the three numbers that
    [Math.random] returns. *)
Definition spatialVariation (r1 r2 r3 : float) : Vector3 :=
  {| x := (r1 - 0.5) * three_tenths;
     y := (r2 - 0.5) * three_tenths;
     z := (r3 - 0.5) * three_tenths |}.

(** [turtle.direction] after [case '[']:
    [turtle.direction.add(spatialVariation).normalize()]. *)
Definition saved_direction (d : Vector3) (r1 r2 r3 : float) : Vector3 :=
  normalize (add d (spatialVariation r1 r2 r3)).

(** All three components are 0 or -0: in particular none is NaN. *)
Definition is_zero_vector (v : Vector3) : bool :=
  (x v =? 0) && (y v =? 0) && (z v =? 0).

End Doubles.

(** * Properties *)

(** ** The grammar expander *)

Section GrammarFacts.

Open Scope string_scope.

Implicit Types (rs : gmap string string) (s acc : string) (n : nat).

Lemma string_app_cons a s1 s2 : String a s1 +:+ s2 = String a (s1 +:+ s2).
Proof. reflexivity. Qed.

Lemma string_app_assoc s1 s2 s3 : (s1 +:+ s2) +:+ s3 = s1 +:+ (s2 +:+ s3).
Proof.
  induction s1 as [|a s1 IH]; [done|].
  by rewrite !string_app_cons, IH.
Qed.

Lemma string_app_nil_r s : s +:+ "" = s.
Proof.
  induction s as [|a s IH]; [done|].
  by rewrite string_app_cons, IH.
Qed.

Lemma string_app_length s1 s2 :
  String.length (s1 +:+ s2) = (String.length s1 + String.length s2)%nat.
Proof.
  induction s1 as [|a s1 IH]; [done|].
  rewrite string_app_cons. simpl. by rewrite IH.
Qed.

(** What one round of the inner loop appends is [subst_nonempty]. *)
Lemma append_char_subst rs acc c :
  Grammar.append_char rs acc c = acc +:+ Grammar.subst_nonempty rs c.
Proof.
  unfold Grammar.append_char, Grammar.subst_nonempty.
  destruct (rs !! String c "") as [[|a r]|]; reflexivity.
Qed.

Lemma fold_append_char rs s acc :
  fold_left (Grammar.append_char rs) (list_ascii_of_string s) acc
  = acc +:+ Grammar.subst_all (Grammar.subst_nonempty rs) s.
Proof.
  revert acc. induction s as [|c s IH]; intros acc; simpl.
  - by rewrite string_app_nil_r.
  - by rewrite IH, append_char_subst, string_app_assoc.
Qed.

Lemma rewrite_subst_all rs s :
  Grammar.rewrite rs s = Grammar.subst_all (Grammar.subst_nonempty rs) s.
Proof. unfold Grammar.rewrite. by rewrite fold_append_char. Qed.

Lemma expand_loop_generation rs n s :
  Grammar.expand_loop rs n s
  = Grammar.generation (Grammar.subst_nonempty rs) n s.
Proof.
  revert s. induction n as [|n IH]; intros s; simpl; [done|].
  by rewrite IH, rewrite_subst_all.
Qed.

(** The last round of the outer loop can be taken to be the last rewriting. *)
Lemma expand_loop_S rs n s :
  Grammar.expand_loop rs (S n) s
  = Grammar.rewrite rs (Grammar.expand_loop rs n s).
Proof.
  revert s. induction n as [|n IH]; intros s; [done|].
  change (Grammar.expand_loop rs (S (S n)) s)
    with (Grammar.expand_loop rs (S n) (Grammar.rewrite rs s)).
  by rewrite IH.
Qed.

(** No character is ever replaced by nothing. *)
Lemma subst_nonempty_length rs c :
  (1 <= String.length (Grammar.subst_nonempty rs c))%nat.
Proof.
  unfold Grammar.subst_nonempty.
  destruct (rs !! String c "") as [[|a r]|]; simpl; lia.
Qed.

Lemma subst_all_length rs s :
  (String.length s
   <= String.length (Grammar.subst_all (Grammar.subst_nonempty rs) s))%nat.
Proof.
  induction s as [|c s IH]; simpl; [lia|].
  rewrite string_app_length.
  pose proof (subst_nonempty_length rs c). lia.
Qed.

Lemma rewrite_length rs s :
  (String.length s <= String.length (Grammar.rewrite rs s))%nat.
Proof. rewrite rewrite_subst_all. apply subst_all_length. Qed.

(** Where no rule has an empty right-hand side the program's substitution is
    the contract's. *)
Lemma subst_nonempty_spec rs c :
  rs !! String c "" ≠ Some "" →
  Grammar.subst_nonempty rs c = Grammar.subst_spec rs c.
Proof.
  unfold Grammar.subst_nonempty, Grammar.subst_spec.
  destruct (rs !! String c "") as [[|a r]|]; congruence.
Qed.

(** One rewriting of the program's axiom. *)
Example expand_once :
  Grammar.expand "X" (Grammar.rules Grammar.SPATIAL_TREE_RULES) 1
  = "F+[[X]-X]-F[-FX]+X+F[+X]-X+F[+X]+X".
Proof. vm_compute. reflexivity. Qed.

(** C1, as stated, fails: with the rule X -> "" the contract erases the
    axiom "X" in one iteration, and the program keeps it, since its test
    [if (rules[char])] takes an empty right-hand side for a missing rule. *)
Lemma C1_empty_rule_kept :
  Grammar.expand "X" Inputs.erasing_rules 1 = "X"
  /\ Grammar.generation (Grammar.subst_spec Inputs.erasing_rules) 1 "X" = ""
  /\ Grammar.expand "X" Inputs.erasing_rules 1
     <> Grammar.generation (Grammar.subst_spec Inputs.erasing_rules) 1 "X".
Proof. vm_compute. repeat split; congruence. Qed.

(** C1, amended: the expander is a function of (axiom, rules, iterations);
    each iteration replaces every character c by rules[c] when c has a rule
    with a non-empty right-hand side and keeps c otherwise, concatenating
    from left to right; axiom "X" with rules X -> "F", F -> "FF" gives "FF"
    after 2 iterations, and 0 iterations give the axiom. *)
Theorem C1_expand_contract :
  (forall ax rs n,
     Grammar.expand ax rs n
     = Grammar.generation (Grammar.subst_nonempty rs) n ax)
  /\ (forall rs c,
        Grammar.subst_nonempty rs c
        = match rs !! String c "" with
          | None | Some "" => String c ""
          | Some r => r
          end)
  /\ Grammar.expand "X" Inputs.doubling_rules 2 = "FF"
  /\ (forall ax rs, Grammar.expand ax rs 0 = ax).
Proof.
  split; [|split; [|split]].
  - intros ax rs n. apply expand_loop_generation.
  - intros rs c. unfold Grammar.subst_nonempty.
    destruct (rs !! String c "") as [[|a r]|]; reflexivity.
  - vm_compute. reflexivity.
  - reflexivity.
Qed.

(** C9: with the program's axiom and rules, the string after n + 1
    iterations is at least as long as the string after n iterations. *)
Theorem C9_length_monotonic :
  forall n,
    (String.length
       (Grammar.expand (Grammar.axiom Grammar.SPATIAL_TREE_RULES)
          (Grammar.rules Grammar.SPATIAL_TREE_RULES) n)
     <= String.length
          (Grammar.expand (Grammar.axiom Grammar.SPATIAL_TREE_RULES)
             (Grammar.rules Grammar.SPATIAL_TREE_RULES) (S n)))%nat.
Proof.
  intros n. unfold Grammar.expand.
  rewrite expand_loop_S. apply rewrite_length.
Qed.

End GrammarFacts.

(** ** Vectors and rotations *)

Section ThreeFacts.

Import Three.
Open Scope R_scope.

Implicit Types (v d axis : Vector3) (q : Quaternion).

Lemma vector3_eq v1 v2 :
  x v1 = x v2 -> y v1 = y v2 -> z v1 = z v2 -> v1 = v2.
Proof. destruct v1, v2; simpl; intros; subst; reflexivity. Qed.

Lemma lengthSq_nonneg v : 0 <= lengthSq v.
Proof. unfold lengthSq. nra. Qed.

Lemma lengthSq_zero v : lengthSq v = 0 -> v = {| x := 0; y := 0; z := 0 |}.
Proof.
  unfold lengthSq. intros Hv. apply vector3_eq; simpl; nra.
Qed.

Lemma length_zero v : length v = 0 -> v = {| x := 0; y := 0; z := 0 |}.
Proof.
  unfold length. intros Hv. apply lengthSq_zero.
  pose proof (lengthSq_nonneg v) as Hn.
  apply sqrt_eq_0 in Hv; [exact Hv | exact Hn].
Qed.

Lemma lengthSq_multiplyScalar v s :
  lengthSq (multiplyScalar v s) = lengthSq v * (s * s).
Proof. unfold lengthSq, multiplyScalar. simpl. ring. Qed.

(** [normalize] leaves the zero vector as it is. *)
Lemma normalize_zero :
  normalize {| x := 0; y := 0; z := 0 |} = {| x := 0; y := 0; z := 0 |}.
Proof.
  unfold normalize, divideScalar, multiplyScalar. simpl.
  apply vector3_eq; simpl; ring.
Qed.

(** [normalize] makes any other vector a unit vector. *)
Lemma normalize_unit v :
  v <> {| x := 0; y := 0; z := 0 |} -> lengthSq (normalize v) = 1.
Proof.
  intros Hv.
  assert (Hl : length v <> 0) by (intros E; apply Hv, length_zero, E).
  unfold normalize, or_one. destruct (Req_dec_T (length v) 0) as [E|_]; [easy|].
  unfold divideScalar. rewrite lengthSq_multiplyScalar.
  assert (Hs : length v * length v = lengthSq v)
    by (apply sqrt_sqrt, lengthSq_nonneg).
  rewrite <- Hs. field. exact Hl.
Qed.

Lemma length_of_lengthSq v : lengthSq v = 1 -> length v = 1.
Proof. unfold length. intros ->. apply sqrt_1. Qed.

Lemma lengthSq_of_length v : length v = 1 -> lengthSq v = 1.
Proof.
  unfold length. intros Hv.
  rewrite <- (sqrt_sqrt (lengthSq v)) by apply lengthSq_nonneg.
  rewrite Hv. ring.
Qed.

Lemma setFromAxisAngle_normSq axis angle :
  lengthSq axis = 1 -> normSq (setFromAxisAngle axis angle) = 1.
Proof.
  unfold lengthSq, normSq, setFromAxisAngle. simpl. intros Ha.
  pose proof (sin2_cos2 (angle / 2)) as Hsc. unfold Rsqr in Hsc.
  replace (x axis * sin (angle / 2) * (x axis * sin (angle / 2)) +
           y axis * sin (angle / 2) * (y axis * sin (angle / 2)) +
           z axis * sin (angle / 2) * (z axis * sin (angle / 2)) +
           cos (angle / 2) * cos (angle / 2))
    with ((x axis * x axis + y axis * y axis + z axis * z axis)
          * (sin (angle / 2) * sin (angle / 2))
          + cos (angle / 2) * cos (angle / 2)) by ring.
  rewrite Ha. lra.
Qed.

(** How [applyQuaternion] changes the squared length: not at all when the
    quaternion has norm 1. *)
Lemma applyQuaternion_lengthSq_gen v q :
  lengthSq (applyQuaternion v q)
  = lengthSq v
    + 4 * ((qx q * qx q + qy q * qy q + qz q * qz q) * lengthSq v
           - (qx q * x v + qy q * y v + qz q * z v)
             * (qx q * x v + qy q * y v + qz q * z v))
        * (normSq q - 1).
Proof. unfold lengthSq, applyQuaternion, normSq. simpl. ring. Qed.

Lemma applyQuaternion_lengthSq v q :
  normSq q = 1 -> lengthSq (applyQuaternion v q) = lengthSq v.
Proof. intros Hq. rewrite applyQuaternion_lengthSq_gen, Hq. ring. Qed.

(** A rotation about a unit axis keeps the length. *)
Lemma applyAxisAngle_lengthSq v axis angle :
  lengthSq axis = 1 -> lengthSq (applyAxisAngle v axis angle) = lengthSq v.
Proof.
  intros Ha. unfold applyAxisAngle.
  apply applyQuaternion_lengthSq, setFromAxisAngle_normSq, Ha.
Qed.

Lemma crossVectors_up d :
  crossVectors Turtle.up d = {| x := z d; y := 0; z := - x d |}.
Proof. unfold crossVectors, Turtle.up. apply vector3_eq; simpl; ring. Qed.

Lemma dot_up d : dot Turtle.up d = y d.
Proof. unfold dot, Turtle.up. simpl. ring. Qed.

(** With the direction along the reference axis, either way, the cross
    product is zero and so is the axis. *)
Lemma branchAxis_vertical d :
  x d = 0 -> z d = 0 -> Turtle.branchAxis d = {| x := 0; y := 0; z := 0 |}.
Proof.
  intros Hx Hz. unfold Turtle.branchAxis.
  rewrite crossVectors_up, Hx, Hz.
  replace (- 0) with 0 by ring. apply normalize_zero.
Qed.

Lemma branchQuaternion_vertical d :
  x d = 0 -> z d = 0 ->
  Turtle.branchQuaternion d
  = {| qx := 0; qy := 0; qz := 0; qw := cos (acos (y d) / 2) |}.
Proof.
  intros Hx Hz. unfold Turtle.branchQuaternion.
  rewrite branchAxis_vertical, dot_up by assumption.
  unfold setFromAxisAngle. simpl. f_equal; ring.
Qed.

(** The orientation of a branch turns the reference axis onto the
    direction, for every unit direction but the one opposite to the
    reference axis. *)
Lemma branchQuaternion_rotates d k :
  lengthSq d = 1 -> y d <> -1 ->
  applyQuaternion {| x := 0; y := k; z := 0 |} (Turtle.branchQuaternion d)
  = multiplyScalar d k.
Proof.
  intros Hd Hy. unfold lengthSq in Hd.
  destruct (Req_dec_T (x d * x d + z d * z d) 0) as [Hv|Hv].
  - assert (Hx : x d = 0) by nra. assert (Hz : z d = 0) by nra.
    assert (Hy1 : y d = 1) by nra.
    rewrite branchQuaternion_vertical, Hy1, acos_1 by assumption.
    replace (0 / 2) with 0 by field. rewrite cos_0.
    unfold applyQuaternion, multiplyScalar. rewrite Hx, Hy1, Hz.
    apply vector3_eq; simpl; ring.
  - assert (Hrange : -1 <= y d <= 1) by nra.
    set (l := sqrt (x d * x d + z d * z d)).
    assert (Hll : l * l = x d * x d + z d * z d)
      by (apply sqrt_sqrt; nra).
    assert (Hl : l <> 0) by (intros E; rewrite E in Hll; lra).
    set (h := acos (y d) / 2).
    assert (Hsin : 2 * sin h * cos h = l).
    { rewrite <- sin_2a. unfold h.
      replace (2 * (acos (y d) / 2)) with (acos (y d)) by field.
      rewrite sin_acos by exact Hrange. unfold l. f_equal.
      unfold Rsqr. lra. }
    assert (Hcos : 1 - 2 * sin h * sin h = y d).
    { rewrite <- cos_2a_sin. unfold h.
      replace (2 * (acos (y d) / 2)) with (acos (y d)) by field.
      apply cos_acos, Hrange. }
    unfold Turtle.branchQuaternion, Turtle.branchAxis.
    rewrite crossVectors_up, dot_up. fold h.
    unfold normalize, or_one, length, lengthSq. simpl.
    replace (z d * z d + 0 * 0 + - x d * - x d)
      with (x d * x d + z d * z d) by ring.
    fold l. destruct (Req_dec_T l 0) as [E|_]; [easy|].
    unfold applyQuaternion, setFromAxisAngle, divideScalar, multiplyScalar.
    simpl. fold h. clearbody h l. apply vector3_eq; simpl.
    + transitivity (x d * k * (2 * sin h * cos h) / l); [field; exact Hl|].
      rewrite Hsin. field. exact Hl.
    + transitivity
        (k * (1 - 2 * sin h * sin h * (x d * x d + z d * z d) / (l * l)));
        [field; exact Hl|].
      rewrite <- Hll, <- Hcos. field. exact Hl.
    + transitivity (z d * k * (2 * sin h * cos h) / l); [field; exact Hl|].
      rewrite Hsin. field. exact Hl.
Qed.

(** The branch orientation for the two vertical unit directions. *)
Lemma branchQuaternion_up :
  Turtle.branchQuaternion Turtle.up
  = {| qx := 0; qy := 0; qz := 0; qw := 1 |}.
Proof.
  rewrite branchQuaternion_vertical by reflexivity. simpl.
  rewrite acos_1. replace (0 / 2) with 0 by field. by rewrite cos_0.
Qed.

Lemma branchQuaternion_down :
  Turtle.branchQuaternion {| x := 0; y := -1; z := 0 |}
  = {| qx := 0; qy := 0; qz := 0; qw := 0 |}.
Proof.
  rewrite branchQuaternion_vertical by reflexivity. simpl.
  replace (-1) with (Ropp 1) by lra.
  rewrite acos_opp, acos_1. replace ((PI - 0) / 2) with (PI / 2) by field.
  by rewrite cos_PI2.
Qed.

(** A quaternion without vector part leaves every vector where it is. *)
Lemma applyQuaternion_scalar v w :
  applyQuaternion v {| qx := 0; qy := 0; qz := 0; qw := w |} = v.
Proof. unfold applyQuaternion. apply vector3_eq; simpl; ring. Qed.

End ThreeFacts.

(** ** The turtle interpreter, one symbol at a time *)

Section StepFacts.

Import Three.
Open Scope R_scope.

Context `{CS : ColorSpace} (cfg : Grammar.Config) (rnd : nat -> R) (time : R).

Local Abbreviation step := (Turtle.step cfg rnd time).
Local Abbreviation forward := (Turtle.forward cfg rnd time).
Local Abbreviation branch := (Turtle.branch cfg rnd time).
Local Abbreviation interpret := (Turtle.interpret cfg rnd time).

(** The [switch] has five cases and no [default]: any other character
    leaves the state as it is, whatever the parameters. *)
Lemma char_cases (c : ascii) :
  c = "F"%char \/ c = "+"%char \/ c = "-"%char \/ c = "["%char
  \/ c = "]"%char
  \/ (c <> "F"%char
      /\ forall (CS' : ColorSpace) cfg' rnd' time' (s : Turtle.Interp),
           Turtle.step cfg' rnd' time' s c = s).
Proof.
  destruct c as [[|] [|] [|] [|] [|] [|] [|] [|]];
    first [ left; reflexivity
          | right; left; reflexivity
          | right; right; left; reflexivity
          | right; right; right; left; reflexivity
          | right; right; right; right; left; reflexivity
          | right; right; right; right; right; split;
            [discriminate | intros; reflexivity] ].
Qed.

Lemma restore_branches (s : Turtle.Interp) :
  Turtle.branches (Turtle.restore s) = Turtle.branches s.
Proof. unfold Turtle.restore. destruct (Turtle.pop _). reflexivity. Qed.

(** Only [case 'F'] pushes a mesh. *)
Lemma step_branches (s : Turtle.Interp) (c : ascii) :
  Turtle.branches (step s c)
  = if Ascii.eqb c "F" then Turtle.branches s ++ [branch s]
    else Turtle.branches s.
Proof.
  destruct (char_cases c) as [->|[->|[->|[->|[->|[Hc Hs]]]]]];
    try reflexivity.
  - apply restore_branches.
  - rewrite Hs. destruct (Ascii.eqb_spec c "F"); [contradiction | reflexivity].
Qed.

Lemma interpret_count (l : list ascii) (s : Turtle.Interp) :
  List.length (Turtle.branches (fold_left step l s))
  = (List.length (Turtle.branches s) + count_occ ascii_dec l "F"%char)%nat.
Proof.
  revert s. induction l as [|c l IH]; intros s; simpl; [lia|].
  rewrite IH, step_branches.
  destruct (ascii_dec c "F") as [->|Hc].
  - simpl. rewrite length_app. simpl. lia.
  - destruct (Ascii.eqb_spec c "F"); [contradiction | lia].
Qed.

(** C8: the number of meshes one traversal produces is the number of F
    characters of the string; each F adds exactly one mesh and any other
    character, known or not, adds none. *)
Theorem C8_branch_count :
  (forall (s : Turtle.Interp) (c : ascii),
     List.length (Turtle.branches (step s c))
     = (List.length (Turtle.branches s)
        + if Ascii.eqb c "F" then 1 else 0)%nat)
  /\ (forall currentString : string,
        List.length
          (Turtle.branches (interpret (Turtle.initial cfg) currentString))
        = count_occ ascii_dec (list_ascii_of_string currentString) "F"%char)
  /\ List.length (Turtle.generatePlantGeometry cfg rnd time)
     = count_occ ascii_dec
         (list_ascii_of_string (Grammar.expanded cfg)) "F"%char.
Proof.
  split; [|split].
  - intros s c. rewrite step_branches.
    destruct (Ascii.eqb c "F"); [|lia].
    rewrite length_app. reflexivity.
  - intros currentString. unfold Turtle.interpret.
    rewrite interpret_count. reflexivity.
  - unfold Turtle.generatePlantGeometry, Turtle.interpret.
    rewrite interpret_count. reflexivity.
Qed.

(** C6: [pop] on an empty array returns [null] and raises nothing; a ] on
    an empty stack leaves position, direction, length and radius (and every
    other field but depth) as they are and takes 0.2 off depth; on a
    non-empty stack the turtle becomes the snapshot on top, with 0.2 taken
    off the snapshot's depth, and the snapshot leaves the stack. *)
Theorem C6_restore :
  (forall h : gmap Heap.ref Heap.Object, Heap.pop h [] = Some (h, [], None))
  /\
  forall (bs : list Mesh) (t : Turtle.TurtleState) (k : nat),
    step {| Turtle.branches := bs; Turtle.turtle := t;
            Turtle.stack := []; Turtle.calls := k |} "]"
    = {| Turtle.branches := bs;
         Turtle.turtle :=
           {| Turtle.position := Turtle.position t;
              Turtle.direction := Turtle.direction t;
              Turtle.length := Turtle.length t;
              Turtle.angle := Turtle.angle t;
              Turtle.color := Turtle.color t;
              Turtle.radius := Turtle.radius t;
              Turtle.depth := Turtle.depth t - 0.2 |};
         Turtle.stack := [];
         Turtle.calls := k |}
    /\ forall (snapshot : Turtle.TurtleState) (rest : Turtle.TurtleStack),
         step {| Turtle.branches := bs; Turtle.turtle := t;
                 Turtle.stack := snapshot :: rest; Turtle.calls := k |} "]"
         = {| Turtle.branches := bs;
              Turtle.turtle :=
                {| Turtle.position := Turtle.position snapshot;
                   Turtle.direction := Turtle.direction snapshot;
                   Turtle.length := Turtle.length snapshot;
                   Turtle.angle := Turtle.angle snapshot;
                   Turtle.color := Turtle.color snapshot;
                   Turtle.radius := Turtle.radius snapshot;
                   Turtle.depth := Turtle.depth snapshot - 0.2 |};
              Turtle.stack := rest;
              Turtle.calls := k |}.
Proof.
  split; [reflexivity|].
  intros bs t k. split; [|intros snapshot rest]; reflexivity.
Qed.

(** The mesh position computed by [case 'F']. *)
Lemma branch_position (s : Turtle.Interp) :
  Three.position (branch s)
  = add (Turtle.position (Turtle.turtle s))
        (multiplyScalar (Turtle.direction (Turtle.turtle s))
           (Turtle.actualLength cfg rnd s * 0.5)).
Proof. reflexivity. Qed.

(** C5, amended: the position recorded in a mesh is the turtle's position
    before the move advanced by direction times half the actual length, that
    is, the midpoint of the positions before and after the move. *)
Theorem C5_branch_at_midpoint :
  forall s : Turtle.Interp,
    let before := Turtle.position (Turtle.turtle s) in
    let after := Turtle.position (Turtle.turtle (step s "F")) in
    Turtle.branches (step s "F") = Turtle.branches s ++ [branch s]
    /\ Three.position (branch s)
       = add before
           (multiplyScalar (Turtle.direction (Turtle.turtle s))
              (Turtle.actualLength cfg rnd s * 0.5))
    /\ Three.position (branch s) = multiplyScalar (add before after) 0.5.
Proof.
  intros s before after. split; [reflexivity|]. split; [reflexivity|].
  rewrite branch_position. subst before after.
  unfold add, multiplyScalar. simpl. unfold clone, multiplyScalar. simpl.
  apply vector3_eq; simpl; lra.
Qed.

(** The two caps of a mesh, for a unit direction that is not the opposite of
    the reference axis: the bottom cap is where the move starts and the top
    cap where it ends. *)
Lemma branch_caps (s : Turtle.Interp) :
  lengthSq (Turtle.direction (Turtle.turtle s)) = 1 ->
  y (Turtle.direction (Turtle.turtle s)) <> -1 ->
  bottomCentre (branch s) = Turtle.position (Turtle.turtle s)
  /\ topCentre (branch s) = Turtle.position (Turtle.turtle (step s "F")).
Proof.
  intros Hd Hy. unfold bottomCentre, topCentre, localToWorld.
  change (quaternion (branch s))
    with (Turtle.branchQuaternion (Turtle.direction (Turtle.turtle s))).
  rewrite !branchQuaternion_rotates by assumption.
  rewrite branch_position.
  change (height (geometry (branch s))) with (Turtle.actualLength cfg rnd s).
  split; unfold add, multiplyScalar; simpl; unfold clone, multiplyScalar;
    simpl; apply vector3_eq; simpl; lra.
Qed.

(** C4, amended: the cylinder of every mesh has radius [radius * 0.8] at its
    top and [radius] at its bottom, and F changes the position only; when
    the direction is a unit vector other than (0, -1, 0), the bottom is the
    near end, at the position before the move, and the top is the far end,
    at the position after it, so the radius goes from [radius] (near) to
    [radius * 0.8] (far). *)
Theorem C4_branch_taper :
  (forall s : Turtle.Interp,
     let t := Turtle.turtle s in
     let t' := Turtle.turtle (step s "F") in
     Turtle.branches (step s "F") = Turtle.branches s ++ [branch s]
     /\ radiusTop (geometry (branch s)) = Turtle.radius t * 0.8
     /\ radiusBottom (geometry (branch s)) = Turtle.radius t
     /\ Turtle.position t'
        = add (Turtle.position t)
            (multiplyScalar (Turtle.direction t)
               (Turtle.actualLength cfg rnd s))
     /\ Turtle.direction t' = Turtle.direction t
     /\ Turtle.length t' = Turtle.length t
     /\ Turtle.radius t' = Turtle.radius t
     /\ Turtle.depth t' = Turtle.depth t)
  /\ (forall s : Turtle.Interp,
        lengthSq (Turtle.direction (Turtle.turtle s)) = 1 ->
        y (Turtle.direction (Turtle.turtle s)) <> -1 ->
        bottomCentre (branch s) = Turtle.position (Turtle.turtle s)
        /\ topCentre (branch s)
           = Turtle.position (Turtle.turtle (step s "F"))).
Proof.
  split.
  - intros s t t'. repeat split; reflexivity.
  - apply branch_caps.
Qed.


End StepFacts.

(** ** The first branch of the program *)

Section FirstBranch.

Import Three.
Open Scope R_scope.

Local Abbreviation cfg := Grammar.SPATIAL_TREE_RULES.
Local Abbreviation first :=
  (Turtle.initial (H := Inputs.byte_colors) cfg).
Local Abbreviation branch0 :=
  (Turtle.branch (H := Inputs.byte_colors) cfg Inputs.centred 0 first).

Lemma initial_direction_unit :
  lengthSq (Turtle.direction (Turtle.turtle first)) = 1.
Proof. unfold lengthSq. simpl. ring. Qed.

Lemma initial_direction_not_down :
  y (Turtle.direction (Turtle.turtle first)) <> -1.
Proof. simpl. lra. Qed.

(** C4, amended, on the first F of the program. *)
Lemma C4_branch_taper_first :
  bottomCentre branch0 = Turtle.position (Turtle.turtle first)
  /\ topCentre branch0
     = Turtle.position
         (Turtle.turtle
            (Turtle.step (H := Inputs.byte_colors) cfg Inputs.centred 0
               first "F")).
Proof.
  apply (C4_branch_taper (CS := Inputs.byte_colors) cfg Inputs.centred 0).
  - exact initial_direction_unit.
  - exact initial_direction_not_down.
Defined.

(** C4, as stated, fails on the first F of the program: the end of the
    cylinder at the position before the move is its bottom, of radius
    [radius] and not [radius * 0.8], and the end at the position after the
    move is its top, of radius [radius * 0.8] and not [radius]. *)
Lemma C4_near_end_is_wide :
  bottomCentre branch0 = Turtle.position (Turtle.turtle first)
  /\ radiusBottom (geometry branch0)
     <> Turtle.radius (Turtle.turtle first) * 0.8
  /\ topCentre branch0
     = Turtle.position
         (Turtle.turtle
            (Turtle.step (H := Inputs.byte_colors) cfg Inputs.centred 0
               first "F"))
  /\ radiusTop (geometry branch0) <> Turtle.radius (Turtle.turtle first).
Proof.
  destruct (branch_caps (CS := Inputs.byte_colors) cfg Inputs.centred 0 first
              initial_direction_unit initial_direction_not_down)
    as [Hb Ht].
  repeat split; [exact Hb | simpl; lra | exact Ht | simpl; lra].
Qed.

(** C5, as stated, fails on the first F of the program: the mesh is not
    placed at the turtle's position before the move, (0, 0, 0), but at
    (0, 0.04, 0). *)
Lemma C5_branch_not_at_start :
  Turtle.branches
    (Turtle.interpret (H := Inputs.byte_colors) cfg Inputs.centred 0 first "F")
  = [branch0]
  /\ Turtle.position (Turtle.turtle first) = {| x := 0; y := 0; z := 0 |}
  /\ Three.position branch0 = {| x := 0; y := 0.04; z := 0 |}
  /\ Three.position branch0 <> Turtle.position (Turtle.turtle first).
Proof.
  assert (Hp : Three.position branch0 = {| x := 0; y := 0.04; z := 0 |}).
  { rewrite branch_position. unfold Turtle.actualLength, Inputs.centred.
    apply vector3_eq; simpl; lra. }
  repeat split; [exact Hp|].
  rewrite Hp. simpl. intros E. apply (f_equal y) in E. simpl in E. lra.
Qed.



End FirstBranch.

(** ** The direction stays a unit vector *)

Section UnitDirection.

Import Three.
Open Scope R_scope.

Context `{CS : ColorSpace} (cfg : Grammar.Config) (rnd : nat -> R) (time : R).

Local Abbreviation step := (Turtle.step cfg rnd time).

Local Abbreviation directions_unit := Turtle.directions_unit.

Lemma initial_directions_unit : directions_unit (Turtle.initial cfg).
Proof.
  split; [|constructor]. unfold lengthSq. simpl. ring.
Qed.

Lemma forward_directions_unit s :
  directions_unit s -> directions_unit (Turtle.forward cfg rnd time s).
Proof. intros [Hd Hs]. split; assumption. Qed.

Lemma turn_directions_unit s theta :
  Turtle.sampledAxis rnd s <> {| x := 0; y := 0; z := 0 |} ->
  directions_unit s -> directions_unit (Turtle.turn rnd s theta).
Proof.
  intros Ha [Hd Hs]. split; [|exact Hs]. simpl.
  rewrite applyAxisAngle_lengthSq; [exact Hd|].
  apply normalize_unit, Ha.
Qed.

Lemma save_directions_unit s :
  add (Turtle.direction (Turtle.turtle s)) (Turtle.spatialVariation rnd s)
  <> {| x := 0; y := 0; z := 0 |} ->
  directions_unit s -> directions_unit (Turtle.save rnd s).
Proof.
  intros Hp [Hd Hs]. split; simpl.
  - apply normalize_unit, Hp.
  - unfold Turtle.push. constructor; [exact Hd | exact Hs].
Qed.

Lemma restore_directions_unit s :
  directions_unit s -> directions_unit (Turtle.restore s).
Proof.
  intros [Hd Hs]. unfold Turtle.restore.
  destruct (Turtle.stack s) as [|t rest]; simpl.
  - split; [exact Hd | constructor].
  - inversion Hs as [|? ? Ht Hrest]; subst. split; [exact Ht | exact Hrest].
Qed.

Lemma step_directions_unit s c :
  Turtle.samples_nonzero rnd c s ->
  directions_unit s -> directions_unit (step s c).
Proof.
  intros [Hturn Hsave] Hs.
  destruct (char_cases c) as [->|[->|[->|[->|[->|[Hc Hu]]]]]].
  - by apply forward_directions_unit.
  - apply turn_directions_unit; [apply Hturn; by left | exact Hs].
  - apply turn_directions_unit; [apply Hturn; by right | exact Hs].
  - apply save_directions_unit; [by apply Hsave | exact Hs].
  - by apply restore_directions_unit.
  - by rewrite Hu.
Qed.

Lemma trace_directions_unit l s :
  Turtle.every_round cfg rnd time (Turtle.samples_nonzero rnd) s l ->
  directions_unit s ->
  Forall directions_unit (Turtle.trace cfg rnd time s l).
Proof.
  revert s. induction l as [|c l IH]; intros s Hl Hs; simpl.
  - constructor; [exact Hs | constructor].
  - destruct Hl as [Hc Hl]. constructor; [exact Hs|].
    apply IH; [exact Hl|]. by apply step_directions_unit.
Qed.


End UnitDirection.


(** ** Two runs on one string *)

Section TwoRuns.

Import Three.
Open Scope R_scope.

Context `{CS : ColorSpace} (cfg : Grammar.Config) (time : R).

Hypothesis no_lengthVariation : Grammar.lengthVariation cfg = 0.
Hypothesis no_angleVariation : Grammar.angleVariation cfg = 0.

Lemma actualLength_no_variation rnd s :
  Turtle.actualLength cfg rnd s = Turtle.length (Turtle.turtle s).
Proof. unfold Turtle.actualLength. rewrite no_lengthVariation. lra. Qed.

Lemma actualAngle_no_variation rnd s :
  Turtle.actualAngle cfg rnd s = Turtle.angle (Turtle.turtle s).
Proof. unfold Turtle.actualAngle. rewrite no_angleVariation. lra. Qed.

Lemma forward_agree rnd1 rnd2 s :
  Turtle.forward cfg rnd1 time s = Turtle.forward cfg rnd2 time s.
Proof.
  unfold Turtle.forward, Turtle.branch.
  by rewrite (actualLength_no_variation rnd1), (actualLength_no_variation rnd2).
Qed.

Lemma turn_agree rnd1 rnd2 s theta :
  Turtle.sampledAxis rnd1 s = Turtle.sampledAxis rnd2 s ->
  Turtle.turn rnd1 s theta = Turtle.turn rnd2 s theta.
Proof. unfold Turtle.turn. by intros ->. Qed.

Lemma save_agree rnd1 rnd2 s :
  Turtle.spatialVariation rnd1 s = Turtle.spatialVariation rnd2 s ->
  Turtle.save rnd1 s = Turtle.save rnd2 s.
Proof. unfold Turtle.save. by intros ->. Qed.

Lemma step_agree rnd1 rnd2 a p s c :
  Turtle.axis_fixed rnd1 a c s -> Turtle.axis_fixed rnd2 a c s ->
  Turtle.perturbation_fixed rnd1 p c s ->
  Turtle.perturbation_fixed rnd2 p c s ->
  Turtle.step cfg rnd1 time s c = Turtle.step cfg rnd2 time s c.
Proof.
  intros Ha1 Ha2 Hp1 Hp2.
  destruct (char_cases c) as [->|[->|[->|[->|[->|[Hc Hu]]]]]].
  - apply forward_agree.
  - simpl. rewrite !actualAngle_no_variation.
    apply turn_agree. rewrite Ha1, Ha2; auto.
  - simpl. rewrite !actualAngle_no_variation.
    apply turn_agree. rewrite Ha1, Ha2; auto.
  - simpl. apply save_agree. rewrite Hp1, Hp2; auto.
  - reflexivity.
  - by rewrite !Hu.
Qed.

(** With the jitter factors at zero and the sampled vectors the same in both
    runs, the two runs go through the same states. *)
Lemma runs_agree rnd1 rnd2 a p l s :
  Turtle.every_round cfg rnd1 time
    (fun c s => Turtle.axis_fixed rnd1 a c s
                /\ Turtle.perturbation_fixed rnd1 p c s) s l ->
  Turtle.every_round cfg rnd2 time
    (fun c s => Turtle.axis_fixed rnd2 a c s
                /\ Turtle.perturbation_fixed rnd2 p c s) s l ->
  fold_left (Turtle.step cfg rnd1 time) l s
  = fold_left (Turtle.step cfg rnd2 time) l s.
Proof.
  revert s. induction l as [|c l IH]; intros s H1 H2; [reflexivity|].
  destruct H1 as [[Ha1 Hp1] H1], H2 as [[Ha2 Hp2] H2]. simpl.
  rewrite <- (step_agree rnd1 rnd2 a p s c Ha1 Ha2 Hp1 Hp2) in H2 |- *.
  by apply IH.
Qed.

End TwoRuns.

(** C2, amended: with lengthVariation and angleVariation set to zero, and
    with both the vector sampled for the rotation axis at every turn and the
    vector sampled for the perturbation at every save fixed instead of
    sampled, two runs of the interpreter on the same string produce the same
    list of meshes. *)
Theorem C2_deterministic_runs :
  forall (CS : Three.ColorSpace) (cfg : Grammar.Config) (time : R)
         (rnd1 rnd2 : nat -> R) (a p : Three.Vector3)
         (currentString : string),
    Grammar.lengthVariation cfg = 0%R ->
    Grammar.angleVariation cfg = 0%R ->
    Turtle.every_round cfg rnd1 time
      (fun c s => Turtle.axis_fixed rnd1 a c s
                  /\ Turtle.perturbation_fixed rnd1 p c s)
      (Turtle.initial cfg) (list_ascii_of_string currentString) ->
    Turtle.every_round cfg rnd2 time
      (fun c s => Turtle.axis_fixed rnd2 a c s
                  /\ Turtle.perturbation_fixed rnd2 p c s)
      (Turtle.initial cfg) (list_ascii_of_string currentString) ->
    Turtle.branches
      (Turtle.interpret cfg rnd1 time (Turtle.initial cfg) currentString)
    = Turtle.branches
        (Turtle.interpret cfg rnd2 time (Turtle.initial cfg) currentString).
Proof.
  intros CS cfg time rnd1 rnd2 a p currentString Hlv Hav H1 H2.
  unfold Turtle.interpret.
  by rewrite (runs_agree cfg time Hlv Hav rnd1 rnd2 a p _ _ H1 H2).
Qed.

Section TwoRunsExamples.

Import Three.
Open Scope R_scope.

Local Abbreviation cfg0 := Inputs.no_variation.
Local Abbreviation init0 := (Turtle.initial (H := Inputs.byte_colors) cfg0).
Local Abbreviation step0 := (Turtle.step (H := Inputs.byte_colors) cfg0).
Local Abbreviation interpret0 :=
  (Turtle.interpret (H := Inputs.byte_colors) cfg0).
Local Abbreviation every_round0 :=
  (Turtle.every_round (H := Inputs.byte_colors) cfg0).
Local Abbreviation axis0 := {| x := 0.25; y := 0; z := 0 |}.
Local Abbreviation zero := {| x := 0; y := 0; z := 0 |}.

Lemma or_one_nonzero a : or_one a <> 0.
Proof. unfold or_one. destruct (Req_dec_T a 0); lra. Qed.

Local Ltac fixed_samples :=
  cbn [Turtle.every_round list_ascii_of_string];
  repeat split; intros Hc;
  try (destruct Hc; discriminate); try discriminate;
  apply vector3_eq; simpl; lra.

(** C2, amended, on two runs of "F+[F]" whose random numbers differ
    wherever a variation factor multiplies them. *)
Lemma C2_deterministic_runs_example :
  Turtle.branches (interpret0 Inputs.run_a 0 init0 "F+[F]")
  = Turtle.branches (interpret0 Inputs.run_b 0 init0 "F+[F]").
Proof.
  apply (C2_deterministic_runs Inputs.byte_colors cfg0 0
           Inputs.run_a Inputs.run_b axis0 zero "F+[F]").
  - reflexivity.
  - reflexivity.
  - fixed_samples.
  - fixed_samples.
Defined.

(** C2, as stated, fails: with both variation factors zero and the same
    axis sampled at the turn, the runs [run_a] and [run_c] on "F+[F]" give
    different meshes, because the perturbation of the save is sampled too
    and no factor of the configuration scales it. *)
Lemma C2_save_still_random :
  Grammar.lengthVariation cfg0 = 0
  /\ Grammar.angleVariation cfg0 = 0
  /\ every_round0 Inputs.run_a 0 (Turtle.axis_fixed Inputs.run_a axis0)
       init0 (list_ascii_of_string "F+[F]")
  /\ every_round0 Inputs.run_c 0 (Turtle.axis_fixed Inputs.run_c axis0)
       init0 (list_ascii_of_string "F+[F]")
  /\ Turtle.branches (interpret0 Inputs.run_a 0 init0 "F+[F]")
     <> Turtle.branches (interpret0 Inputs.run_c 0 init0 "F+[F]").
Proof.
  split; [reflexivity|]. split; [reflexivity|].
  split; [fixed_samples|]. split; [fixed_samples|].
  unfold Turtle.interpret. cbn [fold_left list_ascii_of_string].
  rewrite !step_branches.
  change (Ascii.eqb "]" "F") with false. change (Ascii.eqb "F" "F") with true.
  change (Ascii.eqb "[" "F") with false. change (Ascii.eqb "+" "F") with false.
  cbv iota.
  intros E. apply app_inj_tail in E as [_ E].
  apply (f_equal (fun m => x (Three.position m))) in E.
  rewrite !branch_position in E.
  unfold Turtle.actualLength in E. simpl in E.
  repeat match type of E with
         | context [or_one ?t] =>
             let o := fresh "o" in
             let Ho := fresh "Ho" in
             pose proof (or_one_nonzero t) as Ho;
             set (o := or_one t) in *; clearbody o;
             let u := fresh "u" in
             let Hu := fresh "Hu" in
             assert (Hu : (1 / o) * o = 1) by (field; exact Ho);
             set (u := 1 / o) in *; clearbody u
         end.
  nra.
Qed.

End TwoRunsExamples.

(** ** [TurtleStack] on objects: copies share nothing *)

Section HeapFacts.

Implicit Types (h : gmap Heap.ref Heap.Object) (p q e : Heap.ref).

Local Abbreviation agrees := Heap.agrees.

Lemma agrees_refl h : agrees h h.
Proof. by intros q _. Qed.

Lemma agrees_dom h h' : agrees h h' -> dom h ⊆ dom h'.
Proof.
  intros Ha q Hq. specialize (Ha q Hq).
  apply elem_of_dom in Hq as [o Ho]. apply elem_of_dom.
  exists o. by rewrite Ha.
Qed.

Lemma agrees_trans h1 h2 h3 : agrees h1 h2 -> agrees h2 h3 -> agrees h1 h3.
Proof.
  intros H12 H23 q Hq. rewrite <- (H12 q Hq).
  apply H23. by apply (agrees_dom h1 h2).
Qed.

Lemma alloc_agrees h o : agrees h (Heap.alloc h o).1.
Proof.
  intros q Hq. unfold Heap.alloc. simpl.
  apply lookup_insert_ne. intros <-. by apply (is_fresh (dom h)).
Qed.

Lemma alloc_fresh h o : (Heap.alloc h o).2 ∉ dom h.
Proof. apply is_fresh. Qed.

Lemma alloc_lookup h o : (Heap.alloc h o).1 !! (Heap.alloc h o).2 = Some o.
Proof. unfold Heap.alloc. simpl. apply lookup_insert_eq. Qed.

Lemma alloc_dom h o : dom (Heap.alloc h o).1 = {[ (Heap.alloc h o).2 ]} ∪ dom h.
Proof. unfold Heap.alloc. simpl. apply dom_insert_L. Qed.

Lemma vector3_at_dom h q v : Heap.vector3_at h q = Some v -> q ∈ dom h.
Proof.
  unfold Heap.vector3_at. destruct (h !! q) eqn:E; [|done].
  intros _. apply elem_of_dom. eauto.
Qed.

Lemma color_at_dom h q c : Heap.color_at h q = Some c -> q ∈ dom h.
Proof.
  unfold Heap.color_at. destruct (h !! q) eqn:E; [|done].
  intros _. apply elem_of_dom. eauto.
Qed.

Lemma state_at_dom h q s : Heap.state_at h q = Some s -> q ∈ dom h.
Proof.
  unfold Heap.state_at. destruct (h !! q) eqn:E; [|done].
  intros _. apply elem_of_dom. eauto.
Qed.

Lemma vector3_at_agrees h h' q v :
  agrees h h' -> Heap.vector3_at h q = Some v -> Heap.vector3_at h' q = Some v.
Proof.
  intros Ha Hv. unfold Heap.vector3_at.
  rewrite (Ha q (vector3_at_dom h q v Hv)). exact Hv.
Qed.

Lemma color_at_agrees h h' q c :
  agrees h h' -> Heap.color_at h q = Some c -> Heap.color_at h' q = Some c.
Proof.
  intros Ha Hc. unfold Heap.color_at.
  rewrite (Ha q (color_at_dom h q c Hc)). exact Hc.
Qed.

Lemma state_at_agrees h h' q s :
  agrees h h' -> Heap.state_at h q = Some s -> Heap.state_at h' q = Some s.
Proof.
  intros Ha Hs. unfold Heap.state_at.
  rewrite (Ha q (state_at_dom h q s Hs)). exact Hs.
Qed.

(** What a successful [snapshot] has read. *)
Lemma snapshot_inv h q v :
  Heap.snapshot h q = Some v ->
  exists s,
    Heap.state_at h q = Some s
    /\ Heap.vector3_at h (Heap.position s) = Some (Turtle.position v)
    /\ Heap.vector3_at h (Heap.direction s) = Some (Turtle.direction v)
    /\ Heap.color_at h (Heap.color s) = Some (Turtle.color v)
    /\ Heap.length s = Turtle.length v
    /\ Heap.angle s = Turtle.angle v
    /\ Heap.radius s = Turtle.radius v
    /\ Heap.depth s = Turtle.depth v.
Proof.
  unfold Heap.snapshot. intros Hv.
  destruct (Heap.state_at h q) as [s|] eqn:Hs; [|done]. simpl in Hv.
  destruct (Heap.vector3_at h (Heap.position s)) as [pos|] eqn:Hp; [|done].
  simpl in Hv.
  destruct (Heap.vector3_at h (Heap.direction s)) as [dir|] eqn:Hd; [|done].
  simpl in Hv.
  destruct (Heap.color_at h (Heap.color s)) as [col|] eqn:Hc; [|done].
  simpl in Hv. injection Hv as <-. exists s. simpl.
  split; [reflexivity|]. split; [exact Hp|]. split; [exact Hd|].
  split; [exact Hc|]. repeat split.
Qed.

Lemma snapshot_agrees h h' q v :
  agrees h h' -> Heap.snapshot h q = Some v -> Heap.snapshot h' q = Some v.
Proof.
  intros Ha Hv.
  destruct (snapshot_inv h q v Hv) as (s & Hs & Hp & Hd & Hc & _).
  revert Hv. unfold Heap.snapshot.
  rewrite Hs, (state_at_agrees h h' q s Ha Hs). simpl.
  rewrite Hp, (vector3_at_agrees h h' _ _ Ha Hp). simpl.
  rewrite Hd, (vector3_at_agrees h h' _ _ Ha Hd). simpl.
  rewrite Hc, (color_at_agrees h h' _ _ Ha Hc). simpl. done.
Qed.

Lemma footprint_dom h q v :
  Heap.snapshot h q = Some v -> Heap.footprint h q ⊆ dom h.
Proof.
  intros Hv.
  destruct (snapshot_inv h q v Hv) as (s & Hs & Hp & Hd & Hc & _).
  unfold Heap.footprint. rewrite Hs.
  apply state_at_dom in Hs. apply vector3_at_dom in Hp, Hd.
  apply color_at_dom in Hc. set_solver.
Qed.

Lemma clone_vector3_spec h q v :
  Heap.vector3_at h q = Some v ->
  Heap.clone_vector3 h q = Some (Heap.alloc h (Heap.OVector3 v)).
Proof. unfold Heap.clone_vector3. by intros ->. Qed.

Lemma clone_color_spec h q c :
  Heap.color_at h q = Some c ->
  Heap.clone_color h q = Some (Heap.alloc h (Heap.OColor c)).
Proof. unfold Heap.clone_color. by intros ->. Qed.

(** The object literal of [push] and [pop]: it succeeds on a well-formed
    state, keeps every object there was, and yields a state with the same
    contents made of four new objects. *)
Lemma copy_state_spec h q v :
  Heap.snapshot h q = Some v ->
  exists h' e,
    Heap.copy_state h q = Some (h', e)
    /\ agrees h h'
    /\ Heap.snapshot h' e = Some v
    /\ Heap.footprint h' e ## dom h.
Proof.
  intros Hv.
  destruct (snapshot_inv h q v Hv)
    as (s & Hs & Hp & Hd & Hc & Hlen & Hang & Hrad & Hdep).
  unfold Heap.copy_state. rewrite Hs. simpl.
  rewrite (clone_vector3_spec h _ _ Hp).
  set (o1 := Heap.OVector3 (Turtle.position v)).
  pose proof (alloc_agrees h o1) as H1.
  pose proof (alloc_fresh h o1) as F1.
  pose proof (alloc_lookup h o1) as L1.
  destruct (Heap.alloc h o1) as [h1 p1]. cbn [fst snd] in H1, F1, L1. simpl.
  rewrite (clone_vector3_spec h1 _ _ (vector3_at_agrees h h1 _ _ H1 Hd)).
  set (o2 := Heap.OVector3 (Turtle.direction v)).
  pose proof (alloc_agrees h1 o2) as H2.
  pose proof (alloc_fresh h1 o2) as F2.
  pose proof (alloc_lookup h1 o2) as L2.
  destruct (Heap.alloc h1 o2) as [h2 p2]. cbn [fst snd] in H2, F2, L2. simpl.
  assert (H02 : agrees h h2) by (by eapply agrees_trans).
  rewrite (clone_color_spec h2 _ _ (color_at_agrees h h2 _ _ H02 Hc)).
  set (o3 := Heap.OColor (Turtle.color v)).
  pose proof (alloc_agrees h2 o3) as H3.
  pose proof (alloc_fresh h2 o3) as F3.
  pose proof (alloc_lookup h2 o3) as L3.
  destruct (Heap.alloc h2 o3) as [h3 p3]. cbn [fst snd] in H3, F3, L3. simpl.
  set (o := Heap.OState _).
  pose proof (alloc_agrees h3 o) as H4.
  pose proof (alloc_fresh h3 o) as F4.
  pose proof (alloc_lookup h3 o) as L4.
  destruct (Heap.alloc h3 o) as [h4 p4]. cbn [fst snd] in H4, F4, L4.
  subst o o1 o2 o3.
  pose proof (agrees_dom _ _ H1) as D1. pose proof (agrees_dom _ _ H2) as D2.
  pose proof (agrees_dom _ _ H3) as D3. pose proof (agrees_dom _ _ H4) as D4.
  assert (I1 : p1 ∈ dom h1) by (apply elem_of_dom; eauto).
  assert (I2 : p2 ∈ dom h2) by (apply elem_of_dom; eauto).
  assert (I3 : p3 ∈ dom h3) by (apply elem_of_dom; eauto).
  assert (S4 : Heap.state_at h4 p4 = Some
                 {| Heap.position := p1; Heap.direction := p2;
                    Heap.length := Heap.length s; Heap.angle := Heap.angle s;
                    Heap.color := p3; Heap.radius := Heap.radius s;
                    Heap.depth := Heap.depth s |})
    by (unfold Heap.state_at; by rewrite L4).
  exists h4, p4. split; [reflexivity|]. split.
  { eapply agrees_trans; [exact H1|]. eapply agrees_trans; [exact H2|].
    eapply agrees_trans; [exact H3 | exact H4]. }
  split.
  - unfold Heap.snapshot. rewrite S4. simpl.
    assert (V1 : Heap.vector3_at h4 p1 = Some (Turtle.position v)).
    { unfold Heap.vector3_at.
      rewrite (H4 p1), (H3 p1), (H2 p1), L1 by set_solver. done. }
    assert (V2 : Heap.vector3_at h4 p2 = Some (Turtle.direction v)).
    { unfold Heap.vector3_at.
      rewrite (H4 p2), (H3 p2), L2 by set_solver. done. }
    assert (V3 : Heap.color_at h4 p3 = Some (Turtle.color v)).
    { unfold Heap.color_at. rewrite (H4 p3), L3 by set_solver. done. }
    rewrite V1, V2, V3. simpl.
    rewrite Hlen, Hang, Hrad, Hdep. by destruct v.
  - unfold Heap.footprint. rewrite S4. simpl. set_solver.
Qed.

Lemma reads_agrees h h' stack vs :
  agrees h h' -> Heap.reads h stack vs -> Heap.reads h' stack vs.
Proof.
  intros Ha Hr. induction Hr as [|p v stack vs Hp _ IH]; constructor.
  - by apply (snapshot_agrees h h').
  - exact IH.
Qed.

(** [push] and [pop] on objects read as [push] and [pop] on values: this is
    what lets the interpreter be written on values. *)
Lemma push_reads h stack vs state v :
  Heap.reads h stack vs -> Heap.snapshot h state = Some v ->
  exists h' stack',
    Heap.push h stack state = Some (h', stack')
    /\ agrees h h'
    /\ Heap.reads h' stack' (Turtle.push vs v).
Proof.
  intros Hr Hv.
  destruct (copy_state_spec h state v Hv) as (h' & e & C & A & S & _).
  exists h', (e :: stack). unfold Heap.push. rewrite C.
  split; [reflexivity|]. split; [exact A|].
  unfold Turtle.push, Three.clone. constructor.
  - by destruct v.
  - by apply (reads_agrees h h').
Qed.

Lemma pop_reads h stack vs :
  Heap.reads h stack vs ->
  exists h' stack' res,
    Heap.pop h stack = Some (h', stack', res)
    /\ agrees h h'
    /\ Heap.reads h' stack' (Turtle.pop vs).2
    /\ match res, (Turtle.pop vs).1 with
       | Some p, Some v => Heap.snapshot h' p = Some v
       | None, None => True
       | _, _ => False
       end.
Proof.
  intros Hr. destruct Hr as [|e v stack vs He Hr].
  - exists h, [], None.
    split; [reflexivity|]. split; [apply agrees_refl|].
    split; [constructor | exact I].
  - destruct (copy_state_spec h e v He) as (h' & p & C & A & S & _).
    exists h', stack, (Some p). unfold Heap.pop. rewrite C.
    split; [reflexivity|]. split; [exact A|]. simpl.
    split; [by apply (reads_agrees h h')|].
    unfold Three.clone. by destruct v.
Qed.

(** C7: pushing a state and popping at once gives a state equal to it in
    all seven fields; the snapshot pushed and the state popped are made of
    objects that are new when they are made, so the source, the snapshot and
    the popped state have no object in common; and whatever is then written
    to the objects of the popped state, every state there was before the
    pop, the source and the states pushed earlier among them, reads as
    before. *)
Theorem C7_push_pop_independent :
  forall (h : gmap Heap.ref Heap.Object) (stack : list Heap.ref)
         (state : Heap.ref) (v : Turtle.TurtleState),
    Heap.snapshot h state = Some v ->
    exists h1 e h2 p,
      Heap.push h stack state = Some (h1, e :: stack)
      /\ Heap.pop h1 (e :: stack) = Some (h2, stack, Some p)
      /\ Heap.snapshot h1 e = Some v
      /\ Heap.snapshot h2 p = Some v
      /\ Heap.snapshot h2 state = Some v
      /\ Heap.footprint h1 e ## Heap.footprint h state
      /\ Heap.footprint h2 p ## Heap.footprint h state
      /\ Heap.footprint h2 p ## Heap.footprint h1 e
      /\ forall h3,
           Heap.mutated (Heap.footprint h2 p) h2 h3 ->
           forall q w, Heap.snapshot h1 q = Some w ->
                       Heap.snapshot h3 q = Some w.
Proof.
  intros h stack state v Hv.
  destruct (copy_state_spec h state v Hv) as (h1 & e & C1 & A1 & S1 & F1).
  destruct (copy_state_spec h1 e v S1) as (h2 & p & C2 & A2 & S2 & F2).
  exists h1, e, h2, p.
  pose proof (footprint_dom h state v Hv) as Ds.
  pose proof (footprint_dom h1 e v S1) as De.
  split; [unfold Heap.push; by rewrite C1|].
  split; [unfold Heap.pop; by rewrite C2|].
  split; [exact S1|]. split; [exact S2|].
  split.
  { apply (snapshot_agrees h h2); [by eapply agrees_trans | exact Hv]. }
  split; [set_solver|].
  pose proof (agrees_dom _ _ A1) as D1.
  split; [set_solver|]. split; [set_solver|].
  intros h3 Hm q w Hq.
  apply (snapshot_agrees h1 h3); [|exact Hq].
  intros l Hl. rewrite <- (A2 l Hl). apply Hm. set_solver.
Qed.

End HeapFacts.

(** C7 on the store [one_turtle], an empty stack and the state 4. *)
Lemma C7_push_pop_independent_example :
  exists h1 e h2 p,
    Heap.push Inputs.one_turtle [] 4%positive = Some (h1, [e])
    /\ Heap.pop h1 [e] = Some (h2, [], Some p)
    /\ Heap.snapshot h1 e = Some Inputs.one_turtle_value
    /\ Heap.snapshot h2 p = Some Inputs.one_turtle_value
    /\ Heap.snapshot h2 4%positive = Some Inputs.one_turtle_value
    /\ Heap.footprint h1 e ## Heap.footprint Inputs.one_turtle 4%positive
    /\ Heap.footprint h2 p ## Heap.footprint Inputs.one_turtle 4%positive
    /\ Heap.footprint h2 p ## Heap.footprint h1 e
    /\ forall h3,
         Heap.mutated (Heap.footprint h2 p) h2 h3 ->
         forall q w, Heap.snapshot h1 q = Some w ->
                     Heap.snapshot h3 q = Some w.
Proof.
  apply (C7_push_pop_independent Inputs.one_turtle [] 4%positive
           Inputs.one_turtle_value).
  reflexivity.
Defined.

(** * More properties *)

(** ** The expander as a string homomorphism *)

Section ExpanderFacts.

Open Scope string_scope.

Implicit Types (rs : gmap string string) (s : string) (n m : nat).

Lemma subst_all_app (f : ascii -> string) s1 s2 :
  Grammar.subst_all f (s1 +:+ s2)
  = Grammar.subst_all f s1 +:+ Grammar.subst_all f s2.
Proof.
  induction s1 as [|c s1 IH]; [reflexivity|].
  rewrite string_app_cons. simpl. by rewrite IH, string_app_assoc.
Qed.

Lemma generation_app (f : ascii -> string) n s1 s2 :
  Grammar.generation f n (s1 +:+ s2)
  = Grammar.generation f n s1 +:+ Grammar.generation f n s2.
Proof.
  revert s1 s2. induction n as [|n IH]; intros s1 s2; [reflexivity|].
  simpl. by rewrite subst_all_app, IH.
Qed.

(** X1: rewriting is context-free: the expansion of a concatenation is the
    concatenation of the expansions, for every rule mapping and number of
    iterations. *)
Theorem X1_expand_app :
  forall rs n s1 s2,
    Grammar.expand (s1 +:+ s2) rs n
    = Grammar.expand s1 rs n +:+ Grammar.expand s2 rs n.
Proof.
  intros rs n s1 s2. unfold Grammar.expand.
  rewrite !expand_loop_generation. apply generation_app.
Qed.

(** X2: iterations add up: expanding the result of m iterations n more
    times is expanding m + n times. *)
Theorem X2_expand_compose :
  forall rs m n ax,
    Grammar.expand (Grammar.expand ax rs m) rs n
    = Grammar.expand ax rs (m + n).
Proof.
  intros rs m n. unfold Grammar.expand.
  induction m as [|m IH]; intros ax; [reflexivity|].
  simpl. apply IH.
Qed.

Lemma subst_nonempty_falsy rs c :
  Grammar.truthy (rs !! String c "") = false ->
  Grammar.subst_nonempty rs c = String c "".
Proof.
  unfold Grammar.subst_nonempty, Grammar.truthy.
  destruct (rs !! String c "") as [[|a r]|]; [reflexivity|discriminate|reflexivity].
Qed.

Lemma subst_all_constants rs s :
  Forall (fun c => Grammar.truthy (rs !! String c "") = false)
    (list_ascii_of_string s) ->
  Grammar.subst_all (Grammar.subst_nonempty rs) s = s.
Proof.
  induction s as [|c s IH]; intros Hs; [reflexivity|].
  simpl in Hs. inversion Hs as [|? ? Hc Hs']; subst.
  simpl. by rewrite (subst_nonempty_falsy rs c Hc), IH.
Qed.

(** X3: a string none of whose characters has a rule with a non-empty
    right-hand side is a constant of the grammar: every number of iterations
    returns it unchanged. *)
Theorem X3_constants_fixed :
  forall rs s n,
    Forall (fun c => Grammar.truthy (rs !! String c "") = false)
      (list_ascii_of_string s) ->
    Grammar.expand s rs n = s.
Proof.
  intros rs s n Hs. unfold Grammar.expand.
  induction n as [|n IH]; [reflexivity|].
  simpl. by rewrite rewrite_subst_all, subst_all_constants.
Qed.

(** X3 on the four symbols of the program's grammar that have no rule. *)
Lemma X3_constants_fixed_example :
  Grammar.expand "+-[]" (Grammar.rules Grammar.SPATIAL_TREE_RULES) 4 = "+-[]".
Proof.
  apply (X3_constants_fixed (Grammar.rules Grammar.SPATIAL_TREE_RULES)
           "+-[]" 4).
  repeat constructor.
Defined.

Lemma expand_loop_length rs n s :
  (String.length s <= String.length (Grammar.expand_loop rs n s))%nat.
Proof.
  revert s. induction n as [|n IH]; intros s; simpl; [lia|].
  pose proof (rewrite_length rs s). pose proof (IH (Grammar.rewrite rs s)). lia.
Qed.

(** X4: for every rule mapping, also one with erasing rules, no number of
    further iterations makes the string shorter. *)
Theorem X4_never_shrinks :
  forall rs ax m n,
    (String.length (Grammar.expand ax rs m)
     <= String.length (Grammar.expand ax rs (m + n)))%nat.
Proof.
  intros rs ax m n. unfold Grammar.expand.
  revert ax. induction m as [|m IH]; intros ax; simpl.
  - apply expand_loop_length.
  - apply IH.
Qed.

Lemma generation_ext (f g : ascii -> string) n s :
  (forall c, f c = g c) ->
  Grammar.generation f n s = Grammar.generation g n s.
Proof.
  intros Hfg. revert s. induction n as [|n IH]; intros s; [reflexivity|].
  simpl. rewrite IH. f_equal.
  induction s as [|c s IHs]; [reflexivity|].
  simpl. by rewrite Hfg, IHs.
Qed.

(** X27: for a rule mapping none of whose one-character keys has the empty
    string as right-hand side, the expander is the contract: every
    character with a rule is replaced by the rule's right-hand side and
    every other character is kept. *)
Theorem X27_contract_without_erasing :
  forall rs ax n,
    (forall c : ascii, rs !! String c "" <> Some "") ->
    Grammar.expand ax rs n
    = Grammar.generation (Grammar.subst_spec rs) n ax.
Proof.
  intros rs ax n Hrs. unfold Grammar.expand.
  rewrite expand_loop_generation. apply generation_ext.
  intros c. apply subst_nonempty_spec, Hrs.
Qed.

End ExpanderFacts.

(** X27 on the program's rules and two iterations. *)
Lemma X27_contract_without_erasing_program :
  Grammar.expand "X" (Grammar.rules Grammar.SPATIAL_TREE_RULES) 2
  = Grammar.generation
      (Grammar.subst_spec (Grammar.rules Grammar.SPATIAL_TREE_RULES)) 2 "X".
Proof.
  apply (X27_contract_without_erasing
           (Grammar.rules Grammar.SPATIAL_TREE_RULES) "X" 2).
  intros c. simpl.
  destruct (Ascii.eqb_spec c "X") as [->|HX]; [discriminate|].
  rewrite lookup_insert_ne by congruence.
  destruct (Ascii.eqb_spec c "F") as [->|HF]; [discriminate|].
  rewrite lookup_insert_ne by congruence.
  by rewrite lookup_empty.
Defined.

(** ** The program's grammar: how many symbols, and their nesting *)

Section ProgramGrammar.

Open Scope string_scope.

Local Abbreviation program_rules := (Grammar.rules Grammar.SPATIAL_TREE_RULES).
Local Abbreviation occurrences c s :=
  (count_occ ascii_dec (list_ascii_of_string s) c).

Lemma list_ascii_app s1 s2 :
  list_ascii_of_string (s1 +:+ s2)
  = (list_ascii_of_string s1 ++ list_ascii_of_string s2)%list.
Proof.
  induction s1 as [|c s1 IH]; [reflexivity|].
  rewrite string_app_cons. simpl. by rewrite IH.
Qed.

Lemma subst_all_cons (f : ascii -> string) c s :
  Grammar.subst_all f (String c s) = f c +:+ Grammar.subst_all f s.
Proof. reflexivity. Qed.

(** What the program's rules do to one character. *)
Lemma program_subst c :
  Grammar.subst_nonempty program_rules c
  = if Ascii.eqb c "X" then "F+[[X]-X]-F[-FX]+X+F[+X]-X+F[+X]+X"
    else if Ascii.eqb c "F" then "FF"
    else String c "".
Proof.
  unfold Grammar.subst_nonempty. simpl.
  destruct (Ascii.eqb_spec c "X") as [->|HX]; [reflexivity|].
  rewrite lookup_insert_ne by congruence.
  destruct (Ascii.eqb_spec c "F") as [->|HF]; [reflexivity|].
  rewrite lookup_insert_ne by congruence.
  by rewrite lookup_empty.
Qed.

Lemma program_rewrite_X s :
  occurrences "X"%char (Grammar.rewrite program_rules s)
  = (8 * occurrences "X"%char s)%nat.
Proof.
  rewrite rewrite_subst_all.
  induction s as [|c s IH]; [reflexivity|].
  rewrite subst_all_cons, list_ascii_app, count_occ_app, IH.
  rewrite program_subst.
  change (list_ascii_of_string (String c s))
    with (c :: list_ascii_of_string s).
  destruct (Ascii.eqb_spec c "X") as [->|HX].
  { rewrite count_occ_cons_eq by reflexivity. vm_compute count_occ at 1. lia. }
  rewrite (count_occ_cons_neq _ _ HX).
  destruct (Ascii.eqb_spec c "F") as [->|HF].
  { vm_compute count_occ at 1. lia. }
  simpl list_ascii_of_string.
  rewrite (count_occ_cons_neq _ _ HX). simpl. lia.
Qed.

Lemma program_rewrite_F s :
  occurrences "F"%char (Grammar.rewrite program_rules s)
  = (2 * occurrences "F"%char s + 5 * occurrences "X"%char s)%nat.
Proof.
  rewrite rewrite_subst_all.
  induction s as [|c s IH]; [reflexivity|].
  rewrite subst_all_cons, list_ascii_app, count_occ_app, IH.
  rewrite program_subst.
  change (list_ascii_of_string (String c s))
    with (c :: list_ascii_of_string s).
  destruct (Ascii.eqb_spec c "X") as [->|HX].
  { rewrite (count_occ_cons_eq _ _ (eq_refl "X"%char)).
    rewrite count_occ_cons_neq by discriminate.
    vm_compute count_occ at 1. lia. }
  rewrite (count_occ_cons_neq _ _ HX).
  destruct (Ascii.eqb_spec c "F") as [->|HF].
  { rewrite (count_occ_cons_eq _ _ (eq_refl "F"%char)).
    vm_compute count_occ at 1. lia. }
  simpl list_ascii_of_string.
  rewrite !(count_occ_cons_neq _ _ HF). simpl. lia.
Qed.

Lemma program_counts n :
  let s := Grammar.expand (Grammar.axiom Grammar.SPATIAL_TREE_RULES)
             program_rules n in
  occurrences "X"%char s = (8 ^ n)%nat
  /\ (6 * occurrences "F"%char s + 5 * 2 ^ n = 5 * 8 ^ n)%nat.
Proof.
  unfold Grammar.expand. induction n as [|n [IHX IHF]].
  - split; reflexivity.
  - cbv zeta. rewrite expand_loop_S, program_rewrite_X, program_rewrite_F.
    rewrite IHX. rewrite !Nat.pow_succ_r'. split; lia.
Qed.

(** X5: after n iterations the program's grammar has produced 8^n
    characters X and 5 (8^n - 2^n) / 6 characters F. *)
Theorem X5_symbol_counts :
  forall n,
    let s := Grammar.expand (Grammar.axiom Grammar.SPATIAL_TREE_RULES)
               program_rules n in
    occurrences "X"%char s = (8 ^ n)%nat
    /\ (6 * occurrences "F"%char s + 5 * 2 ^ n = 5 * 8 ^ n)%nat.
Proof. exact program_counts. Qed.

(** X17: whatever [Math.random] returns, the program builds 3400 meshes. *)
Theorem X17_program_meshes :
  forall (CS : Three.ColorSpace) (rnd : nat -> R) (time : R),
    List.length
      (Turtle.generatePlantGeometry Grammar.SPATIAL_TREE_RULES rnd time)
    = 3400%nat.
Proof.
  intros CS rnd time.
  unfold Turtle.generatePlantGeometry, Turtle.interpret.
  rewrite interpret_count.
  destruct (program_counts 4) as [_ HF].
  change (Grammar.expand (Grammar.axiom Grammar.SPATIAL_TREE_RULES)
            program_rules 4)
    with (Grammar.expanded Grammar.SPATIAL_TREE_RULES) in HF.
  change (List.length (Turtle.branches (Turtle.initial _))) with 0%nat.
  change (2 ^ 4)%nat with 16%nat in HF.
  change (8 ^ 4)%nat with 4096%nat in HF. lia.
Qed.

End ProgramGrammar.

(** ** Brackets: what rewriting keeps and what the stack does *)

Section NestingFacts.

Open Scope string_scope.

Implicit Types (rs : gmap string string) (l : list ascii) (k j : nat).

Lemma nesting_app k l1 l2 :
  Analysis.nesting k (l1 ++ l2)%list
  = Analysis.nesting k l1 ≫= fun k' => Analysis.nesting k' l2.
Proof.
  revert k. induction l1 as [|c l1 IH]; intros k; [reflexivity|].
  simpl. destruct (Ascii.eqb c "["); [apply IH|].
  destruct (Ascii.eqb c "]"); [|apply IH].
  destruct k; [reflexivity | apply IH].
Qed.

Lemma nesting_shift k k' j l :
  Analysis.nesting k l = Some k' ->
  Analysis.nesting (k + j) l = Some (k' + j)%nat.
Proof.
  revert k. induction l as [|c l IH]; intros k; simpl.
  - by intros [= ->].
  - destruct (Ascii.eqb c "["); [apply (IH (S k))|].
    destruct (Ascii.eqb c "]"); [|apply IH].
    destruct k as [|k]; [discriminate | apply IH].
Qed.

Lemma nesting_neutral k r :
  Analysis.well_nested r ->
  Analysis.nesting k (list_ascii_of_string r) = Some k.
Proof. intros Hr. apply (nesting_shift 0 0 k _ Hr). Qed.

Lemma nesting_subst rs c k :
  Analysis.bracket_neutral rs ->
  Analysis.nesting k (list_ascii_of_string (Grammar.subst_nonempty rs c))
  = Analysis.nesting k [c].
Proof.
  intros Hrs. unfold Grammar.subst_nonempty.
  destruct (rs !! String c "") as [[|a r]|] eqn:E; [reflexivity| |reflexivity].
  destruct (Hrs c (String a r) E) as (Ho & Hc & Hr); [discriminate|].
  rewrite (nesting_neutral k _ Hr). simpl.
  destruct (Ascii.eqb_spec c "["); [contradiction|].
  destruct (Ascii.eqb_spec c "]"); [contradiction|]. reflexivity.
Qed.

Lemma nesting_rewrite rs s k :
  Analysis.bracket_neutral rs ->
  Analysis.nesting k (list_ascii_of_string (Grammar.rewrite rs s))
  = Analysis.nesting k (list_ascii_of_string s).
Proof.
  intros Hrs. rewrite rewrite_subst_all.
  revert k. induction s as [|c s IH]; intros k; [reflexivity|].
  rewrite subst_all_cons, list_ascii_app, nesting_app.
  rewrite (nesting_subst rs c k Hrs).
  change (list_ascii_of_string (String c s))
    with ([c] ++ list_ascii_of_string s)%list.
  rewrite nesting_app.
  destruct (Analysis.nesting k [c]) as [k'|]; [apply IH | reflexivity].
Qed.

Lemma nesting_expand rs ax n :
  Analysis.bracket_neutral rs -> Analysis.well_nested ax ->
  Analysis.well_nested (Grammar.expand ax rs n).
Proof.
  intros Hrs. unfold Analysis.well_nested, Grammar.expand.
  revert ax. induction n as [|n IH]; intros ax Hax; [exact Hax|].
  simpl. apply IH. by rewrite nesting_rewrite.
Qed.

(** X6: when no applied rule rewrites a bracket and every right-hand side
    is well nested, rewriting changes the nesting of no string: a well
    nested axiom stays well nested through every number of iterations. *)
Theorem X6_nesting_preserved :
  forall rs ax n,
    Analysis.bracket_neutral rs -> Analysis.well_nested ax ->
    Analysis.well_nested (Grammar.expand ax rs n).
Proof. intros rs ax n. apply nesting_expand. Qed.

(** The program's rules rewrite X and F only, into well nested strings. *)
Lemma program_rules_neutral :
  Analysis.bracket_neutral (Grammar.rules Grammar.SPATIAL_TREE_RULES).
Proof.
  intros c r Hr _. simpl in Hr.
  destruct (Ascii.eqb_spec c "X") as [->|HX].
  { rewrite lookup_insert_eq in Hr. injection Hr as <-.
    repeat split; discriminate || reflexivity. }
  rewrite lookup_insert_ne in Hr by congruence.
  destruct (Ascii.eqb_spec c "F") as [->|HF].
  { rewrite lookup_insert_eq in Hr. injection Hr as <-.
    repeat split; discriminate || reflexivity. }
  rewrite lookup_insert_ne in Hr by congruence.
  by rewrite lookup_empty in Hr.
Qed.

(** X6 on the program: the string it interprets is well nested. *)
Lemma X6_nesting_preserved_program :
  Analysis.well_nested (Grammar.expanded Grammar.SPATIAL_TREE_RULES).
Proof.
  apply (X6_nesting_preserved (Grammar.rules Grammar.SPATIAL_TREE_RULES)
           "X" 4).
  - exact program_rules_neutral.
  - reflexivity.
Defined.

Lemma program_well_nested :
  Analysis.well_nested (Grammar.expanded Grammar.SPATIAL_TREE_RULES).
Proof.
  apply nesting_expand; [exact program_rules_neutral | reflexivity].
Qed.

End NestingFacts.

(** ** The stack during a traversal *)

Section StackFacts.

Import Three.
Open Scope R_scope.

Context `{CS : ColorSpace} (cfg : Grammar.Config) (rnd : nat -> R) (time : R).

Local Abbreviation step := (Turtle.step cfg rnd time).
Local Abbreviation interpret := (Turtle.interpret cfg rnd time).

Implicit Types (s : Turtle.Interp) (l : list ascii) (c : ascii).

(** What one symbol does to the stack. *)
Lemma step_stack s c :
  Turtle.stack (step s c)
  = if Ascii.eqb c "[" then Turtle.push (Turtle.stack s) (Turtle.turtle s)
    else if Ascii.eqb c "]" then tail (Turtle.stack s)
    else Turtle.stack s.
Proof.
  destruct c as [[|] [|] [|] [|] [|] [|] [|] [|]]; try reflexivity.
  simpl. unfold Turtle.restore. destruct (Turtle.stack s); reflexivity.
Qed.

Lemma fold_step_height l s :
  List.length (Turtle.stack (fold_left step l s))
  = Analysis.height (List.length (Turtle.stack s)) l.
Proof.
  revert s. induction l as [|c l IH]; intros s; [reflexivity|].
  simpl. rewrite IH, step_stack.
  destruct (Ascii.eqb c "["); [reflexivity|].
  destruct (Ascii.eqb c "]"); [|reflexivity].
  by destruct (Turtle.stack s).
Qed.

(** X7: the number of saved states after a traversal depends on the string
    only: every [ adds one, every ] removes one if there is one, and an
    unmatched [ leaves its state on the stack. *)
Theorem X7_stack_height :
  forall s currentString,
    List.length (Turtle.stack (interpret s currentString))
    = Analysis.height (List.length (Turtle.stack s))
        (list_ascii_of_string currentString).
Proof. intros s currentString. apply fold_step_height. Qed.

(** A run of symbols nested at level [k] leaves the stack below its [k]
    topmost entries alone and never pops an empty stack. *)
Lemma nested_run l s k k' :
  Analysis.nesting k l = Some k' ->
  (k <= List.length (Turtle.stack s))%nat ->
  skipn k' (Turtle.stack (fold_left step l s)) = skipn k (Turtle.stack s)
  /\ (k' <= List.length (Turtle.stack (fold_left step l s)))%nat
  /\ Turtle.every_round cfg rnd time
       (fun c s => c = "]"%char -> Turtle.stack s <> []) s l.
Proof.
  revert s k. induction l as [|c l IH]; intros s k Hn Hk; simpl in Hn |- *.
  - injection Hn as <-. repeat split. exact Hk.
  - pose proof (step_stack s c) as Hs.
    destruct (Ascii.eqb_spec c "[") as [->|Hopen].
    { destruct (IH (step s "[") (S k) Hn) as (H1 & H2 & H3).
      { rewrite Hs. simpl. lia. }
      split; [by rewrite H1, Hs|]. split; [exact H2|].
      split; [discriminate | exact H3]. }
    destruct (Ascii.eqb_spec c "]") as [->|Hclose].
    { destruct k as [|k]; [discriminate|].
      destruct (Turtle.stack s) as [|e rest] eqn:E; [simpl in Hk; lia|].
      destruct (IH (step s "]") k Hn) as (H1 & H2 & H3).
      { rewrite Hs. simpl in Hk |- *. lia. }
      split; [by rewrite H1, Hs|]. split; [exact H2|].
      split; [intros _; discriminate | exact H3]. }
    destruct (IH (step s c) k Hn) as (H1 & H2 & H3).
    { by rewrite Hs. }
    split; [by rewrite H1, Hs|]. split; [exact H2|].
    split; [intros ->; contradiction | exact H3].
Qed.

(** X8: in the traversal of a well nested string every ] finds a saved
    state to restore, and the stack ends as it started; from the initial
    state it ends empty. *)
Theorem X8_well_nested_run :
  forall s currentString,
    Analysis.well_nested currentString ->
    Turtle.every_round cfg rnd time
      (fun c s => c = "]"%char -> Turtle.stack s <> [])
      s (list_ascii_of_string currentString)
    /\ Turtle.stack (interpret s currentString) = Turtle.stack s.
Proof.
  intros s currentString Hw.
  destruct (nested_run _ s 0 0 Hw) as (H1 & _ & H3); [lia|].
  split; [exact H3 | exact H1].
Qed.

(** X9: a [ and its matching ] around a well nested string give back the
    turtle as it was before the [, its colour too, but for depth, which is
    0.2 less: a bracket pair lowers depth. *)
Theorem X9_bracket_pair :
  forall s w,
    Analysis.well_nested w ->
    let t := Turtle.turtle s in
    let s' := interpret s (String "[" (w +:+ "]")) in
    Turtle.turtle s'
    = {| Turtle.position := Turtle.position t;
         Turtle.direction := Turtle.direction t;
         Turtle.length := Turtle.length t;
         Turtle.angle := Turtle.angle t;
         Turtle.color := Turtle.color t;
         Turtle.radius := Turtle.radius t;
         Turtle.depth := Turtle.depth t - 0.2 |}
    /\ Turtle.stack s' = Turtle.stack s.
Proof.
  intros s w Hw t s'. subst s'. unfold Turtle.interpret.
  change (list_ascii_of_string (String "[" (w +:+ "]")))
    with ("["%char :: list_ascii_of_string (w +:+ "]")).
  rewrite list_ascii_app.
  change (fold_left step ("["%char :: ?l) s)
    with (fold_left step l (step s "[")).
  rewrite fold_left_app.
  destruct (nested_run _ (step s "[") 0 0 Hw) as (H1 & _ & _); [lia|].
  rewrite !skipn_O in H1.
  change (fold_left step (list_ascii_of_string "]") ?a)
    with (Turtle.restore a).
  unfold Turtle.restore. rewrite H1. simpl. split; reflexivity.
Qed.

End StackFacts.

(** X8 on the program: no ] of the string it interprets pops an empty
    stack, and the stack is empty at the end. *)
Lemma X8_well_nested_run_program :
  Turtle.every_round (H := Inputs.byte_colors) Grammar.SPATIAL_TREE_RULES
    Inputs.centred 0
    (fun c s => c = "]"%char -> Turtle.stack s <> [])
    (Turtle.initial (H := Inputs.byte_colors) Grammar.SPATIAL_TREE_RULES)
    (list_ascii_of_string (Grammar.expanded Grammar.SPATIAL_TREE_RULES))
  /\ Turtle.stack
       (Turtle.interpret (H := Inputs.byte_colors) Grammar.SPATIAL_TREE_RULES
          Inputs.centred 0
          (Turtle.initial (H := Inputs.byte_colors)
             Grammar.SPATIAL_TREE_RULES)
          (Grammar.expanded Grammar.SPATIAL_TREE_RULES))
     = Turtle.stack
         (Turtle.initial (H := Inputs.byte_colors)
            Grammar.SPATIAL_TREE_RULES).
Proof.
  apply (X8_well_nested_run (CS := Inputs.byte_colors)
           Grammar.SPATIAL_TREE_RULES Inputs.centred 0).
  exact program_well_nested.
Defined.

(** X26: in the program's own traversal, whatever [Math.random] returns,
    every ] finds a saved state to restore, so the case of a ] on an empty
    stack never occurs, and no saved state is left at the end. *)
Theorem X26_program_stack :
  forall (CS : Three.ColorSpace) (rnd : nat -> R) (time : R),
    Turtle.every_round Grammar.SPATIAL_TREE_RULES rnd time
      (fun c s => c = "]"%char -> Turtle.stack s <> [])
      (Turtle.initial Grammar.SPATIAL_TREE_RULES)
      (list_ascii_of_string (Grammar.expanded Grammar.SPATIAL_TREE_RULES))
    /\ Turtle.stack
         (Turtle.interpret Grammar.SPATIAL_TREE_RULES rnd time
            (Turtle.initial Grammar.SPATIAL_TREE_RULES)
            (Grammar.expanded Grammar.SPATIAL_TREE_RULES))
       = [].
Proof.
  intros CS rnd time.
  destruct (nested_run Grammar.SPATIAL_TREE_RULES rnd time _
              (Turtle.initial Grammar.SPATIAL_TREE_RULES) 0 0
              program_well_nested) as (H1 & _ & H3); [simpl; lia|].
  split; [exact H3 | exact H1].
Qed.

(** X9 on the string "[F[+F]F]" from the initial state. *)
Lemma X9_bracket_pair_example :
  let s := Turtle.initial (H := Inputs.byte_colors)
             Grammar.SPATIAL_TREE_RULES in
  let t := Turtle.turtle s in
  let s' := Turtle.interpret (H := Inputs.byte_colors)
              Grammar.SPATIAL_TREE_RULES Inputs.centred 0 s
              (String "[" ("F[+F]F" +:+ "]")) in
  Turtle.turtle s'
  = {| Turtle.position := Turtle.position t;
       Turtle.direction := Turtle.direction t;
       Turtle.length := Turtle.length t;
       Turtle.angle := Turtle.angle t;
       Turtle.color := Turtle.color t;
       Turtle.radius := Turtle.radius t;
       Turtle.depth := (Turtle.depth t - 0.2)%R |}
  /\ Turtle.stack s' = Turtle.stack s.
Proof.
  apply (X9_bracket_pair (CS := Inputs.byte_colors)
           Grammar.SPATIAL_TREE_RULES Inputs.centred 0).
  reflexivity.
Defined.

(** ** What a traversal keeps *)

Section TraversalFacts.

Import Three.
Open Scope R_scope.

Context `{CS : ColorSpace} (cfg : Grammar.Config) (rnd : nat -> R) (time : R).

Local Abbreviation step := (Turtle.step cfg rnd time).
Local Abbreviation interpret := (Turtle.interpret cfg rnd time).

Implicit Types (s : Turtle.Interp) (l : list ascii) (c : ascii).

Lemma initial_at_level : Analysis.at_level cfg (Turtle.initial cfg).
Proof.
  unfold Analysis.at_level. simpl. repeat split; lra.
Qed.

Lemma step_at_level s c :
  Analysis.at_level cfg s -> Analysis.at_level cfg (step s c).
Proof.
  unfold Analysis.at_level. intros Hs.
  destruct (char_cases c) as [->|[->|[->|[->|[->|[Hc Hu]]]]]].
  - exact Hs.
  - exact Hs.
  - exact Hs.
  - destruct Hs as (Hl & Hr & Ha & Hrest). simpl.
    rewrite Hl, Hr. repeat split; try assumption; lra.
  - simpl. unfold Turtle.restore.
    destruct Hs as (Hl & Hr & Ha & Hrest).
    destruct (Turtle.stack s) as [|e rest]; simpl.
    + repeat split; assumption.
    + exact Hrest.
  - by rewrite Hu.
Qed.

Lemma trace_at_level l s :
  Analysis.at_level cfg s ->
  Forall (Analysis.at_level cfg) (Turtle.trace cfg rnd time s l).
Proof.
  revert s. induction l as [|c l IH]; intros s Hs; simpl.
  - constructor; [exact Hs | constructor].
  - constructor; [exact Hs|]. apply IH, step_at_level, Hs.
Qed.

(** X10: throughout a traversal from the initial state, the turtle's length
    and radius are the configured length and 0.02 times 0.7 to the power of
    the number of saved states, and its angle is the configured angle. *)
Theorem X10_length_by_level :
  forall currentString,
    Forall
      (fun s =>
         let k := List.length (Turtle.stack s) in
         Turtle.length (Turtle.turtle s) = Grammar.length cfg * 0.7 ^ k
         /\ Turtle.radius (Turtle.turtle s) = 0.02 * 0.7 ^ k
         /\ Turtle.angle (Turtle.turtle s) = Grammar.angle cfg)
      (Turtle.trace cfg rnd time (Turtle.initial cfg)
         (list_ascii_of_string currentString)).
Proof.
  intros currentString.
  pose proof (trace_at_level (list_ascii_of_string currentString) _
                initial_at_level) as Ht.
  induction Ht as [|s ss (Hl & Hr & Ha & _) _ IH]; constructor;
    [|exact IH].
  repeat split; assumption.
Qed.

End TraversalFacts.

(** ** Lengths, random numbers and meshes *)

Section MeshFacts.

Import Three.
Open Scope R_scope.

Context `{CS : ColorSpace} (cfg : Grammar.Config) (rnd : nat -> R) (time : R).

Local Abbreviation step := (Turtle.step cfg rnd time).
Local Abbreviation interpret := (Turtle.interpret cfg rnd time).
Local Abbreviation branch := (Turtle.branch cfg rnd time).

Implicit Types (s : Turtle.Interp) (l : list ascii) (c : ascii).

(** X11: with [Math.random] in [0, 1), a non-negative lengthVariation and a
    non-negative turtle length, the height of a mesh, which is also the
    distance the turtle moves, is within lengthVariation / 2 of the turtle's
    length, relatively: it is at least length * (1 - lengthVariation / 2)
    and less than or equal to length * (1 + lengthVariation / 2). *)
Theorem X11_length_jitter :
  forall s,
    0 <= rnd (Turtle.calls s) < 1 ->
    0 <= Grammar.lengthVariation cfg ->
    0 <= Turtle.length (Turtle.turtle s) ->
    let len := Turtle.length (Turtle.turtle s) in
    let lv := Grammar.lengthVariation cfg in
    height (geometry (branch s)) = Turtle.actualLength cfg rnd s
    /\ len * (1 - lv / 2) <= height (geometry (branch s))
       <= len * (1 + lv / 2).
Proof.
  intros s Hr Hv Hl len lv. split; [reflexivity|].
  change (height (geometry (branch s))) with (Turtle.actualLength cfg rnd s).
  unfold Turtle.actualLength. subst len lv.
  set (u := rnd (Turtle.calls s)) in *.
  set (len := Turtle.length (Turtle.turtle s)) in *.
  set (lv := Grammar.lengthVariation cfg) in *. clearbody u len lv.
  assert (H1 : 0 <= lv * u) by nra.
  assert (H2 : 0 <= lv * (1 - u)) by nra.
  assert (H3 : 0 <= len * (lv * u)) by nra.
  assert (H4 : 0 <= len * (lv * (1 - u))) by nra.
  split; nra.
Qed.

(** X12: with [Math.random] in [0, 1) and a non-negative angleVariation,
    the angle of a turn is within angleVariation / 2 of the turtle's
    angle. *)
Theorem X12_angle_jitter :
  forall s,
    0 <= rnd (Turtle.calls s) < 1 ->
    0 <= Grammar.angleVariation cfg ->
    let a := Turtle.angle (Turtle.turtle s) in
    let av := Grammar.angleVariation cfg in
    a - av / 2 <= Turtle.actualAngle cfg rnd s <= a + av / 2.
Proof.
  intros s Hr Hv a av. unfold Turtle.actualAngle. subst a av.
  set (u := rnd (Turtle.calls s)) in *.
  set (a := Turtle.angle (Turtle.turtle s)) in *.
  set (av := Grammar.angleVariation cfg) in *. clearbody u a av.
  split; nra.
Qed.

Lemma step_calls s c :
  Turtle.calls (step s c) = (Turtle.calls s + Analysis.draws [c])%nat.
Proof.
  destruct c as [[|] [|] [|] [|] [|] [|] [|] [|]]; simpl;
    try (unfold Turtle.restore; destruct (Turtle.pop _); simpl); lia.
Qed.

Lemma fold_step_calls l s :
  Turtle.calls (fold_left step l s)
  = (Turtle.calls s + Analysis.draws l)%nat.
Proof.
  revert s. induction l as [|c l IH]; intros s; simpl; [lia|].
  rewrite IH, step_calls. simpl. lia.
Qed.

(** X13: the statements of the loop call [Math.random] once for every F,
    four times for every + and every -, three times for every [ and never
    for any other character, whatever the numbers returned; the calls made
    inside the constructors of three.js come on top and are not counted. *)
Theorem X13_random_calls :
  forall s currentString,
    Turtle.calls (interpret s currentString)
    = (Turtle.calls s
       + Analysis.draws (list_ascii_of_string currentString))%nat.
Proof. intros s currentString. apply fold_step_calls. Qed.

(** X14: the orientation of a mesh is a unit quaternion whenever the
    direction is a unit vector other than (0, -1, 0). *)
Theorem X14_orientation_unit :
  forall s,
    lengthSq (Turtle.direction (Turtle.turtle s)) = 1 ->
    y (Turtle.direction (Turtle.turtle s)) <> -1 ->
    normSq (quaternion (branch s)) = 1.
Proof.
  intros s Hd Hy.
  change (quaternion (branch s))
    with (Turtle.branchQuaternion (Turtle.direction (Turtle.turtle s))).
  set (d := Turtle.direction (Turtle.turtle s)) in *.
  destruct (Req_dec_T (x d * x d + z d * z d) 0) as [Hv|Hv].
  - unfold lengthSq in Hd.
    assert (Hx : x d = 0) by nra. assert (Hz : z d = 0) by nra.
    assert (Hy1 : y d = 1) by nra.
    rewrite branchQuaternion_vertical, Hy1, acos_1 by assumption.
    replace (0 / 2) with 0 by field. rewrite cos_0.
    unfold normSq. simpl. ring.
  - unfold Turtle.branchQuaternion.
    apply setFromAxisAngle_normSq, normalize_unit.
    unfold Turtle.branchAxis. rewrite crossVectors_up.
    intros E. apply Hv.
    pose proof (f_equal x E) as Ex. pose proof (f_equal z E) as Ez.
    simpl in Ex, Ez. nra.
Qed.

Lemma fold_step_branches l s :
  exists added,
    Turtle.branches (fold_left step l s) = Turtle.branches s ++ added.
Proof.
  revert s. induction l as [|c l IH]; intros s; simpl.
  - exists []. by rewrite app_nil_r.
  - destruct (IH (step s c)) as [added Ha]. rewrite Ha, step_branches.
    destruct (Ascii.eqb c "F").
    + exists (branch s :: added). by rewrite <- app_assoc.
    + by exists added.
Qed.

(** X15: a traversal only ever appends to the list of meshes: the meshes
    there were are still there, in the same places and unchanged. *)
Theorem X15_branches_extended :
  forall s currentString,
    exists added,
      Turtle.branches (interpret s currentString)
      = Turtle.branches s ++ added.
Proof. intros s currentString. apply fold_step_branches. Qed.

Lemma step_unknown s c : Analysis.known c = false -> step s c = s.
Proof.
  destruct c as [[|] [|] [|] [|] [|] [|] [|] [|]];
    (discriminate || reflexivity).
Qed.

Lemma fold_step_filter l s :
  fold_left step (List.filter Analysis.known l) s = fold_left step l s.
Proof.
  revert s. induction l as [|c l IH]; intros s; [reflexivity|].
  simpl. destruct (Analysis.known c) eqn:E; simpl.
  - apply IH.
  - rewrite IH. by rewrite (step_unknown s c E).
Qed.

(** X16: the characters without a case, X among them, might as well not be
    in the string: removing them all changes nothing of the traversal, not
    the meshes, not the turtle, not the stack, not the calls to
    [Math.random]. *)
Theorem X16_unknown_skipped :
  forall s currentString,
    interpret s
      (string_of_list_ascii
         (List.filter Analysis.known (list_ascii_of_string currentString)))
    = interpret s currentString.
Proof.
  intros s currentString. unfold Turtle.interpret.
  rewrite list_ascii_of_string_of_list_ascii. apply fold_step_filter.
Qed.

End MeshFacts.

(** X11 on the first F of the program, with [Math.random] returning 0.5. *)
Lemma X11_length_jitter_first :
  let s := Turtle.initial (H := Inputs.byte_colors)
             Grammar.SPATIAL_TREE_RULES in
  let m := Turtle.branch (H := Inputs.byte_colors)
             Grammar.SPATIAL_TREE_RULES Inputs.centred 0 s in
  let len := Turtle.length (Turtle.turtle s) in
  let lv := Grammar.lengthVariation Grammar.SPATIAL_TREE_RULES in
  Three.height (Three.geometry m)
  = Turtle.actualLength Grammar.SPATIAL_TREE_RULES Inputs.centred s
  /\ (len * (1 - lv / 2) <= Three.height (Three.geometry m)
      <= len * (1 + lv / 2))%R.
Proof.
  apply (X11_length_jitter (CS := Inputs.byte_colors)
           Grammar.SPATIAL_TREE_RULES Inputs.centred 0);
    unfold Inputs.centred; simpl; lra.
Defined.

(** X12 on the initial state, with [Math.random] returning 0.5. *)
Lemma X12_angle_jitter_first :
  let s := Turtle.initial (H := Inputs.byte_colors)
             Grammar.SPATIAL_TREE_RULES in
  let a := Turtle.angle (Turtle.turtle s) in
  let av := Grammar.angleVariation Grammar.SPATIAL_TREE_RULES in
  (a - av / 2
   <= Turtle.actualAngle Grammar.SPATIAL_TREE_RULES Inputs.centred s
   <= a + av / 2)%R.
Proof.
  apply (X12_angle_jitter Grammar.SPATIAL_TREE_RULES Inputs.centred);
    unfold Inputs.centred; simpl; lra.
Defined.

(** X14 on the first F of the program. *)
Lemma X14_orientation_unit_first :
  Three.normSq
    (Three.quaternion
       (Turtle.branch (H := Inputs.byte_colors) Grammar.SPATIAL_TREE_RULES
          Inputs.centred 0
          (Turtle.initial (H := Inputs.byte_colors)
             Grammar.SPATIAL_TREE_RULES)))
  = 1%R.
Proof.
  apply (X14_orientation_unit (CS := Inputs.byte_colors)
           Grammar.SPATIAL_TREE_RULES Inputs.centred 0).
  - unfold Three.lengthSq. simpl. lra.
  - simpl. lra.
Defined.

(** ** [getPlantColor] *)

Section ColourFacts.

Import Three.
Open Scope R_scope.

Context `{CS : ColorSpace}.

Local Abbreviation trunkColor := (fromHex 0x8B4513).
Local Abbreviation branchColor := (fromHex 0xCD853F).
Local Abbreviation twigColor := (fromHex 0xD2691E).

Lemma color_eq (c1 c2 : Color) :
  r c1 = r c2 -> g c1 = g c2 -> b c1 = b c2 -> c1 = c2.
Proof. destruct c1, c2; simpl; intros; subst; reflexivity. Qed.

Lemma lerpColors_start c1 c2 alpha : alpha = 0 -> lerpColors c1 c2 alpha = c1.
Proof. intros ->. apply color_eq; simpl; ring. Qed.

Lemma lerpColors_end c1 c2 alpha : alpha = 1 -> lerpColors c1 c2 alpha = c2.
Proof. intros ->. apply color_eq; simpl; ring. Qed.

(** [getPlantColor] is the gradient, moved in lightness by the variation. *)
Lemma getPlantColor_split depth time :
  Turtle.getPlantColor depth time
  = offsetHSL (Analysis.gradient depth) 0 0 (Analysis.variation depth time).
Proof. reflexivity. Qed.

Lemma ramp_clamped depth : 5 <= depth -> Analysis.ramp depth = 1.
Proof.
  intros Hd. unfold Analysis.ramp, Rmin.
  destruct (Rle_dec (depth / 5) 1); lra.
Qed.

Lemma ramp_below depth : depth <= 5 -> Analysis.ramp depth = depth / 5.
Proof.
  intros Hd. unfold Analysis.ramp, Rmin.
  destruct (Rle_dec (depth / 5) 1); lra.
Qed.

(** X18: from depth 5 on the colour no longer depends on depth but through
    the variation: the gradient is the twig colour. *)
Theorem X18_gradient_clamped :
  forall depth time,
    5 <= depth ->
    Analysis.gradient depth = twigColor
    /\ Turtle.getPlantColor depth time
       = offsetHSL twigColor 0 0 (sin (time * 0.1 + depth) * 0.05).
Proof.
  intros depth time Hd.
  assert (Hg : Analysis.gradient depth = twigColor).
  { unfold Analysis.gradient. rewrite (ramp_clamped depth Hd).
    destruct (Rlt_dec 1 0.3); [lra|]. apply lerpColors_end. lra. }
  split; [exact Hg|]. by rewrite getPlantColor_split, Hg.
Qed.

(** X19: the gradient has no jump where its two blends meet, at depth 1.5:
    the end of the trunk-to-branch blend and the start of the
    branch-to-twig blend are both the branch colour, which is the value of
    the gradient there; and at depth 0 the gradient is the trunk colour. *)
Theorem X19_gradient_stops :
  lerpColors trunkColor branchColor (0.3 / 0.3) = branchColor
  /\ lerpColors branchColor twigColor ((0.3 - 0.3) / 0.7) = branchColor
  /\ Analysis.gradient 1.5 = branchColor
  /\ Analysis.gradient 0 = trunkColor.
Proof.
  split; [apply lerpColors_end; lra|].
  split; [apply lerpColors_start; lra|].
  split.
  - unfold Analysis.gradient. rewrite ramp_below by lra.
    destruct (Rlt_dec (1.5 / 5) 0.3); [lra|]. apply lerpColors_start. lra.
  - unfold Analysis.gradient. rewrite ramp_below by lra.
    destruct (Rlt_dec (0 / 5) 0.3); [|lra]. apply lerpColors_start. lra.
Qed.

(** X20: for a depth that is not negative the gradient is a blend of two
    neighbouring stops with a weight between 0 and 1, so it stays between
    them in every channel. *)
Theorem X20_gradient_between_stops :
  forall depth,
    0 <= depth ->
    exists c1 c2 alpha,
      0 <= alpha <= 1
      /\ Analysis.gradient depth = lerpColors c1 c2 alpha
      /\ ((c1 = trunkColor /\ c2 = branchColor)
          \/ (c1 = branchColor /\ c2 = twigColor)).
Proof.
  intros depth Hd. unfold Analysis.gradient.
  assert (Ht : 0 <= Analysis.ramp depth <= 1).
  { unfold Analysis.ramp, Rmin. destruct (Rle_dec (depth / 5) 1); lra. }
  destruct (Rlt_dec (Analysis.ramp depth) 0.3) as [Hlt|Hge].
  - exists trunkColor, branchColor, (Analysis.ramp depth / 0.3).
    split; [lra|]. split; [reflexivity | by left].
  - exists branchColor, twigColor, ((Analysis.ramp depth - 0.3) / 0.7).
    split; [lra|]. split; [reflexivity | by right].
Qed.

(** X21: a negative depth is not clamped: the gradient is the
    trunk-to-branch blend taken at a negative weight, beyond the trunk
    colour. *)
Theorem X21_negative_depth :
  forall depth,
    depth < 0 ->
    Analysis.gradient depth
    = lerpColors trunkColor branchColor (depth / 5 / 0.3)
    /\ depth / 5 / 0.3 < 0.
Proof.
  intros depth Hd. unfold Analysis.gradient.
  rewrite ramp_below by lra.
  destruct (Rlt_dec (depth / 5) 0.3); [|lra]. split; [reflexivity | lra].
Qed.

(** X22: the lightness offset passed to [offsetHSL] is at most 0.05 either
    way, and it is sin depth * 0.05 at time 0, the time the component
    passes. *)
Theorem X22_variation_bounded :
  forall depth time,
    -0.05 <= Analysis.variation depth time <= 0.05
    /\ Analysis.variation depth 0 = sin depth * 0.05
    /\ Turtle.getPlantColor depth time
       = offsetHSL (Analysis.gradient depth) 0 0
           (Analysis.variation depth time).
Proof.
  intros depth time. unfold Analysis.variation.
  pose proof (SIN_bound (time * 0.1 + depth)) as Hs.
  split; [lra|]. split; [|reflexivity].
  f_equal. f_equal. lra.
Qed.

End ColourFacts.

(** X18 at depth 6 and time 0. *)
Lemma X18_gradient_clamped_example :
  Analysis.gradient (H := Inputs.byte_colors) 6
  = Three.fromHex (ColorSpace := Inputs.byte_colors) 0xD2691E
  /\ Turtle.getPlantColor (H := Inputs.byte_colors) 6 0
     = Three.offsetHSL (ColorSpace := Inputs.byte_colors)
         (Three.fromHex (ColorSpace := Inputs.byte_colors) 0xD2691E)
         0 0 (sin (0 * 0.1 + 6) * 0.05)%R.
Proof.
  apply (X18_gradient_clamped (CS := Inputs.byte_colors) 6 0). lra.
Defined.

(** X20 at depth 1. *)
Lemma X20_gradient_between_stops_example :
  exists c1 c2 alpha,
    (0 <= alpha <= 1)%R
    /\ Analysis.gradient (H := Inputs.byte_colors) 1
       = Three.lerpColors c1 c2 alpha
    /\ ((c1 = Three.fromHex (ColorSpace := Inputs.byte_colors) 0x8B4513
         /\ c2 = Three.fromHex (ColorSpace := Inputs.byte_colors) 0xCD853F)
        \/ (c1 = Three.fromHex (ColorSpace := Inputs.byte_colors) 0xCD853F
            /\ c2 = Three.fromHex (ColorSpace := Inputs.byte_colors)
                      0xD2691E)).
Proof.
  apply (X20_gradient_between_stops (CS := Inputs.byte_colors) 1). lra.
Defined.

(** X21 at depth -0.2, the depth after a ] on an empty stack. *)
Lemma X21_negative_depth_example :
  Analysis.gradient (H := Inputs.byte_colors) (-0.2)
  = Three.lerpColors
      (Three.fromHex (ColorSpace := Inputs.byte_colors) 0x8B4513)
      (Three.fromHex (ColorSpace := Inputs.byte_colors) 0xCD853F)
      (-0.2 / 5 / 0.3)
  /\ (-0.2 / 5 / 0.3 < 0)%R.
Proof.
  apply (X21_negative_depth (CS := Inputs.byte_colors) (-0.2)). lra.
Defined.

(** ** [TurtleStack] on objects: last in, first out *)

Section StackOrder.

Implicit Types (h : gmap Heap.ref Heap.Object) (stack : list Heap.ref).

(** X23: after pushing a state a and then a state b, the first pop returns a
    copy that reads as b, the second a copy that reads as a, both leave a
    and b reading as before, and the array is then as it was before the two
    pushes. *)
Theorem X23_last_in_first_out :
  forall h stack (a b : Heap.ref) (va vb : Turtle.TurtleState),
    Heap.snapshot h a = Some va ->
    Heap.snapshot h b = Some vb ->
    exists h1 e1 h2 e2 h3 p1 h4 p2,
      Heap.push h stack a = Some (h1, e1 :: stack)
      /\ Heap.push h1 (e1 :: stack) b = Some (h2, e2 :: e1 :: stack)
      /\ Heap.pop h2 (e2 :: e1 :: stack) = Some (h3, e1 :: stack, Some p1)
      /\ Heap.snapshot h3 p1 = Some vb
      /\ Heap.pop h3 (e1 :: stack) = Some (h4, stack, Some p2)
      /\ Heap.snapshot h4 p2 = Some va
      /\ Heap.snapshot h4 a = Some va
      /\ Heap.snapshot h4 b = Some vb.
Proof.
  intros h stack a b va vb Ha Hb.
  destruct (copy_state_spec h a va Ha) as (h1 & e1 & C1 & A1 & S1 & _).
  pose proof (snapshot_agrees h h1 b vb A1 Hb) as Hb1.
  destruct (copy_state_spec h1 b vb Hb1) as (h2 & e2 & C2 & A2 & S2 & _).
  destruct (copy_state_spec h2 e2 vb S2) as (h3 & p1 & C3 & A3 & S3 & _).
  pose proof (snapshot_agrees h1 h2 e1 va A2 S1) as S1'.
  pose proof (snapshot_agrees h2 h3 e1 va A3 S1') as S1''.
  destruct (copy_state_spec h3 e1 va S1'') as (h4 & p2 & C4 & A4 & S4 & _).
  exists h1, e1, h2, e2, h3, p1, h4, p2.
  split; [unfold Heap.push; by rewrite C1|].
  split; [unfold Heap.push; by rewrite C2|].
  split; [unfold Heap.pop; by rewrite C3|].
  split; [exact S3|].
  split; [unfold Heap.pop; by rewrite C4|].
  split; [exact S4|].
  assert (A : Heap.agrees h h4).
  { eapply agrees_trans; [exact A1|]. eapply agrees_trans; [exact A2|].
    eapply agrees_trans; [exact A3 | exact A4]. }
  split; by apply (snapshot_agrees h h4).
Qed.

(** X24: [push] on objects is [push] on values: if the array reads as the
    list vs and the state reads as v, the call succeeds, the new array reads
    as v pushed on vs, and every object there was is unchanged. *)
Theorem X24_push_refines :
  forall h stack (vs : Turtle.TurtleStack) (state : Heap.ref)
         (v : Turtle.TurtleState),
    Heap.reads h stack vs -> Heap.snapshot h state = Some v ->
    exists h' stack',
      Heap.push h stack state = Some (h', stack')
      /\ Heap.agrees h h'
      /\ Heap.reads h' stack' (Turtle.push vs v).
Proof. intros h stack vs state v. apply push_reads. Qed.

(** X25: [pop] on objects is [pop] on values: if the array reads as the
    list vs, the call succeeds, the array left reads as the list left, the
    result is null exactly when the list is empty and otherwise reads as
    the value popped, and every object there was is unchanged. *)
Theorem X25_pop_refines :
  forall h stack (vs : Turtle.TurtleStack),
    Heap.reads h stack vs ->
    exists h' stack' res,
      Heap.pop h stack = Some (h', stack', res)
      /\ Heap.agrees h h'
      /\ Heap.reads h' stack' (Turtle.pop vs).2
      /\ match res, (Turtle.pop vs).1 with
         | Some p, Some v => Heap.snapshot h' p = Some v
         | None, None => True
         | _, _ => False
         end.
Proof. intros h stack vs. apply pop_reads. Qed.

End StackOrder.

(** X24 on [one_turtle] and an empty array. *)
Lemma X24_push_refines_example :
  exists h' stack',
    Heap.push Inputs.one_turtle [] 4%positive = Some (h', stack')
    /\ Heap.agrees Inputs.one_turtle h'
    /\ Heap.reads h' stack' (Turtle.push [] Inputs.one_turtle_value).
Proof.
  apply (X24_push_refines Inputs.one_turtle [] [] 4%positive
           Inputs.one_turtle_value).
  - constructor.
  - reflexivity.
Defined.

(** X25 on [one_turtle] and the array holding its state. *)
Lemma X25_pop_refines_example :
  exists h' stack' res,
    Heap.pop Inputs.one_turtle [4%positive] = Some (h', stack', res)
    /\ Heap.agrees Inputs.one_turtle h'
    /\ Heap.reads h' stack' (Turtle.pop [Inputs.one_turtle_value]).2
    /\ match res, (Turtle.pop [Inputs.one_turtle_value]).1 with
       | Some p, Some v => Heap.snapshot h' p = Some v
       | None, None => True
       | _, _ => False
       end.
Proof.
  apply (X25_pop_refines Inputs.one_turtle [4%positive]
           [Inputs.one_turtle_value]).
  constructor; [reflexivity | constructor].
Defined.

(** X23 with the state of [one_turtle] pushed twice. *)
Lemma X23_last_in_first_out_example :
  exists h1 e1 h2 e2 h3 p1 h4 p2,
    Heap.push Inputs.one_turtle [] 4%positive = Some (h1, [e1])
    /\ Heap.push h1 [e1] 4%positive = Some (h2, [e2; e1])
    /\ Heap.pop h2 [e2; e1] = Some (h3, [e1], Some p1)
    /\ Heap.snapshot h3 p1 = Some Inputs.one_turtle_value
    /\ Heap.pop h3 [e1] = Some (h4, [], Some p2)
    /\ Heap.snapshot h4 p2 = Some Inputs.one_turtle_value
    /\ Heap.snapshot h4 4%positive = Some Inputs.one_turtle_value
    /\ Heap.snapshot h4 4%positive = Some Inputs.one_turtle_value.
Proof.
  apply (X23_last_in_first_out Inputs.one_turtle [] 4%positive 4%positive
           Inputs.one_turtle_value Inputs.one_turtle_value);
    reflexivity.
Defined.

(** ** Rounding *)

Section DoublesFacts.

Import PrimFloat.


End DoublesFacts.
